(** * HealthConnect backend: request handlers of [server.js]

    A shallow embedding of the Express handlers of [server.js] and the
    properties its specification states about them.

    JavaScript values that travel through the handlers (request bodies,
    stored documents, response bodies) are a small JSON-like type; the
    handlers run in a monad that threads the database and the list of
    calls made to the outside (MongoDB, the mail relay, the completion
    API) and that can throw, so that an error nobody catches is visible
    as the outcome of the request.  What the outside answers during one
    request is an explicit input, [env].

    A JavaScript string is kept as the bytes of its UTF-8 form; looking
    for an ASCII key in it is the same on these bytes as on its code
    units.  The built-ins whose behaviour is not in the source,
    [String.prototype.toLowerCase] and bcryptjs, are parameters of the
    handlers, with the laws that are used of them. *)

From Stdlib Require Import String Ascii ZArith NArith List Bool Lia.
From stdpp Require Import gmap strings list fin_maps.
Import ListNotations.
Set Warnings "-register-all".
Local Open Scope string_scope.
Local Open Scope list_scope.

(** ** JavaScript values *)

Module Js.

(** The values a parsed JSON body or a stored document can hold.
    [VUndefined] is what reading an absent property gives; [VDate] is a
    [Date] object (milliseconds).  No handler computes with numbers, they
    are only carried around. *)
Inductive value : Type :=
| VUndefined
| VNull
| VBool (b : bool)
| VNum (n : Z)
| VStr (s : string)
| VDate (t : Z)
| VArr (items : list value)
| VObj (fields : list (string * value)).

(** An object: its own properties, in insertion order. *)
Definition object := list (string * value).

(** [obj.key]: the value of the first property of that name, or
    [undefined]. *)
Fixpoint prop (obj : object) (key : string) : value :=
  match obj with
  | [] => VUndefined
  | (k, v) :: rest => if String.eqb k key then v else prop rest key
  end.

(** Structural equality of values. *)
Fixpoint value_eqb (a b : value) : bool :=
  match a, b with
  | VUndefined, VUndefined => true
  | VNull, VNull => true
  | VBool x, VBool y => Bool.eqb x y
  | VNum x, VNum y => Z.eqb x y
  | VStr x, VStr y => String.eqb x y
  | VDate x, VDate y => Z.eqb x y
  | VArr xs, VArr ys =>
      (fix items_eqb (xs ys : list value) : bool :=
         match xs, ys with
         | [], [] => true
         | x :: xs', y :: ys' => value_eqb x y && items_eqb xs' ys'
         | _, _ => false
         end) xs ys
  | VObj xs, VObj ys =>
      (fix fields_eqb (xs ys : list (string * value)) : bool :=
         match xs, ys with
         | [], [] => true
         | (k, x) :: xs', (k', y) :: ys' =>
             String.eqb k k' && value_eqb x y && fields_eqb xs' ys'
         | _, _ => false
         end) xs ys
  | _, _ => false
  end.

(** [v === s] for a string literal [s]: strict equality, no coercion. *)
Definition strict_eq_string (v : value) (s : string) : bool :=
  match v with
  | VStr x => String.eqb x s
  | _ => false
  end.

(** Whether converting [v] to a string, as a template literal [${v}]
    does, completes.  Primitives always convert.  An object parsed from
    JSON converts through the inherited [toString], unless it has an own
    property of that name, which cannot be a function: then the
    conversion throws a [TypeError].  An array converts by joining its
    elements, each converted in turn. *)
Fixpoint to_string_ok (v : value) : bool :=
  match v with
  | VObj fields =>
      negb (existsb (fun kv => String.eqb (fst kv) "toString") fields)
  | VArr items =>
      (fix all_ok (l : list value) : bool :=
         match l with
         | [] => true
         | x :: l' => to_string_ok x && all_ok l'
         end) items
  | _ => true
  end.

(** Whether [v.join(sep)] completes: among the values JSON can produce
    only arrays have a [join] method, and it converts every element. *)
Definition join_ok (v : value) : bool :=
  match v with
  | VArr items => forallb to_string_ok items
  | _ => false
  end.

(** *** Strings *)

(** One byte lowered as an ASCII letter; bytes outside [A-Z] are kept. *)
Definition lower_ascii (c : ascii) : ascii :=
  let n := N_of_ascii c in
  if (65 <=? n)%N && (n <=? 90)%N then ascii_of_N (n + 32) else c.

(** The letters [A-Z] of a string lowered, everything else kept. *)
Fixpoint ascii_lower (s : string) : string :=
  match s with
  | EmptyString => EmptyString
  | String c s' => String (lower_ascii c) (ascii_lower s')
  end.

(** A string of ASCII characters only. *)
Definition is_ascii (s : string) : bool :=
  forallb (fun c => (N_of_ascii c <? 128)%N) (list_ascii_of_string s).

(** [String.prototype.toLowerCase].  It follows the Unicode case
    mappings, which are not in the source: it is a parameter. *)
Class Lowercase : Type := {
  toLowerCase : string -> string
}.

(** What is used of it beyond being a function: on a string of ASCII
    characters it lowers the letters [A-Z] and keeps the rest. *)
Class LowercaseAscii (L : Lowercase) : Prop := {
  toLowerCase_ascii : forall s, is_ascii s = true -> toLowerCase s = ascii_lower s
}.

(** [s.includes(key)]: [key] occurs in [s] at some position. *)
Fixpoint includes (s key : string) : bool :=
  String.prefix key s ||
  match s with
  | EmptyString => false
  | String _ s' => includes s' key
  end.

End Js.
Import Js.

(** ** The outside world *)

(** A stored document and a parsed request body are JavaScript objects. *)
Definition document : Type := object.

(** Errors that can be thrown while a handler runs. *)
Inductive js_error : Type :=
| TypeError            (* a method called on a value that lacks it *)
| IllegalArguments     (* bcryptjs rejecting its arguments *)
| StorageUnavailable   (* a MongoDB operation rejected *)
| UpstreamUnavailable. (* the completion API call rejected *)

(** The calls a handler makes to its collaborators, in the order they
    are made.  A call is recorded when it is attempted, whether or not it
    succeeds. *)
Inductive event : Type :=
| EvCompletion (query : string)
| EvFindOne (coll : string) (filter : object)
| EvInsertOne (coll : string) (doc : document)
| EvSendMail (to : value) (subject : string).

(** The database (collection name to documents, oldest first) and the
    calls made so far. *)
Record world : Type := World {
  db : gmap string (list document);
  calls : list event
}.

(** What the collaborators answer during one request.  Every handler
    makes each kind of call at most once, so one answer per kind is
    enough. *)
Record env : Type := Env {
  completion : option string;  (* text of the completion, [None]: the call fails *)
  find_ok : bool;              (* [findOne] resolves *)
  insert_ok : bool;            (* [insertOne] resolves *)
  mail_ok : bool;              (* [sendMail] calls back without an error *)
  now : Z;                     (* [new Date()] *)
  fresh_id : string;           (* the [_id] MongoDB generates *)
  salt : string                (* the salt bcryptjs generates *)
}.

(** ** A monad for handler bodies: state and exceptions

    A thrown error does not undo what was done before it: the world
    comes back in both cases. *)

Inductive outcome (A : Type) : Type :=
| Returned (a : A)
| Thrown (err : js_error).
Arguments Returned {A} a.
Arguments Thrown {A} err.

Definition M (A : Type) : Type := world -> outcome A * world.

Definition ret {A} (a : A) : M A := fun w => (Returned a, w).

Definition throw {A} (err : js_error) : M A := fun w => (Thrown err, w).

Definition bind {A B} (m : M A) (k : A -> M B) : M B :=
  fun w =>
    match m w with
    | (Returned a, w') => k a w'
    | (Thrown err, w') => (Thrown err, w')
    end.

(** [try { m } catch (error) { handler error }]. *)
Definition try_catch {A} (m : M A) (handler : js_error -> M A) : M A :=
  fun w =>
    match m w with
    | (Returned a, w') => (Returned a, w')
    | (Thrown err, w') => handler err w'
    end.

Declare Scope handler_scope.
Delimit Scope handler_scope with handler.
Notation "x <- m ;; k" := (bind m (fun x => k))
  (at level 100, m at next level, right associativity) : handler_scope.
Notation "m ;; k" := (bind m (fun _ => k))
  (at level 100, right associativity) : handler_scope.
Local Open Scope handler_scope.

Definition record_call (ev : event) : M unit :=
  fun w => (Returned tt, {| db := db w; calls := calls w ++ [ev] |}).

(** *** MongoDB *)

(** Modelled from the spec: the MongoDB driver is outside the source;
    a collection is the list of its documents, oldest first.  A document
    matches an equality filter when each field of the filter is equal to
    the document's.  The statements below only use filters on a string. *)
Definition matches (filter : object) (doc : document) : bool :=
  forallb (fun kv => value_eqb (prop doc (fst kv)) (snd kv)) filter.

(** Modelled from the spec: [db.collection(coll).findOne(filter)] gives
    the first matching document or [null], or fails when the storage is
    unavailable. *)
Definition findOne (e : env) (coll : string) (filter : object)
  : M (option document) :=
  record_call (EvFindOne coll filter) ;;
  if find_ok e
  then fun w => (Returned (List.find (matches filter) (db w !!! coll)), w)
  else throw StorageUnavailable.

(** Modelled from the spec: [db.collection(coll).insertOne(doc)]
    appends the document, whatever its shape, under a generated [_id],
    which is returned; it fails when the storage is unavailable. *)
Definition insertOne (e : env) (coll : string) (doc : document) : M value :=
  record_call (EvInsertOne coll doc) ;;
  if insert_ok e
  then fun w =>
         let stored := ("_id", VStr (fresh_id e)) :: doc in
         (Returned (VStr (fresh_id e)),
          {| db := <[coll := db w !!! coll ++ [stored]]> (db w);
             calls := calls w |})
  else throw StorageUnavailable.

(** *** The mail relay *)

(** Modelled from the spec: [transporter.sendMail(mailOptions, callback)]
    sends one mail and reports success or failure, without retrying.  The
    result is whether the callback receives an [error].  The HTML body of
    the mail is not part of the model. *)
Definition sendMail (e : env) (to : value) (subject : string) : M bool :=
  record_call (EvSendMail to subject) ;;
  ret (negb (mail_ok e)).

(** *** Template literals *)

(** The template literal of a mail body: every [${v}] converts [v] to a
    string, in order, and the first conversion that fails throws a
    [TypeError].  The text itself is not part of the model. *)
Definition interpolate (vs : list value) : M unit :=
  if forallb to_string_ok vs then ret tt else throw TypeError.

(** *** bcryptjs *)

(** The two functions of bcryptjs the server calls, on strings; the
    library is outside the source and is a parameter of the handlers.
    [bcrypt_hash password rounds salt] is the hash made with the generated
    salt.  [bcrypt_compare password hashed] is the boolean the comparison
    resolves with, or [None] when it rejects (a stored string that is not
    a bcrypt hash can make it do so). *)
Class Bcrypt : Type := {
  bcrypt_hash : string -> nat -> string -> string;
  bcrypt_compare : string -> string -> option bool
}.

(** What is used of it: comparing a password with its own hash resolves
    with [true]. *)
Class BcryptSound (B : Bcrypt) : Prop := {
  compare_own_hash : forall password rounds salt,
    bcrypt_compare password (bcrypt_hash password rounds salt) = Some true
}.

(** [bcrypt.hash(s, rounds)]: rejects unless [s] is a string. *)
Definition hash `{Bcrypt} (e : env) (s : value) (rounds : nat) : M string :=
  match s with
  | VStr password => ret (bcrypt_hash password rounds (salt e))
  | _ => throw IllegalArguments
  end.

(** [bcrypt.compare(s, hash)]: rejects unless both are strings, and
    when the library rejects the pair. *)
Definition compare `{Bcrypt} (s hashed : value) : M bool :=
  match s, hashed with
  | VStr password, VStr h =>
      match bcrypt_compare password h with
      | Some matched => ret matched
      | None => throw IllegalArguments
      end
  | _, _ => throw IllegalArguments
  end.

(** ** HTTP responses *)

Record response : Type := Response {
  status : nat;
  body : object
}.

(** [res.status(code).json(obj)]. *)
Definition json (code : nat) (obj : object) : response :=
  {| status := code; body := obj |}.

(** ** The chatbot *)

(** The [responses] object, keys in insertion order. *)
Definition responses : list (string * string) :=
  [ ("hello",
     "Hello! Welcome to HealthConnect. How can I assist you today?");
    ("hi",
     "Hi there! How can I help you?");
    ("workout splits",
     "Here are some popular workout splits:
1. **Full Body (3 days/week)**: Work all major muscle groups in each session.
2. **Upper/Lower (4 days/week)**: Alternate between upper and lower body workouts.
3. **Push/Pull/Legs (6 days/week)**: Focus on pushing, pulling, and leg exercises.
Which one are you interested in?");
    ("diet plans",
     "Here are some diet plans based on your goal:
1. **Weight Loss**: High-protein, low-carb, and calorie-deficit meals.
2. **Muscle Gain**: High-protein, moderate-carb, and calorie-surplus meals.
3. **Vegetarian**: Plant-based protein sources like beans, lentils, and tofu.
What's your goal?");
    ("fitness advice",
     "Here are some general fitness tips:
1. **Workout Frequency**: 3-5 times per week for optimal results.
2. **Build Muscle**: Focus on progressive overload and proper nutrition.
3. **Improve Cardio**: Incorporate HIIT or steady-state cardio into your routine.
Do you have a specific question?");
    ("default",
     "I'm sorry, I didn't understand that. Can you please rephrase or ask something else?") ].

(** [responses.default]. *)
Definition responses_default : string := Eval cbv in
  match prop (map (fun kr => (fst kr, VStr (snd kr))) responses) "default" with
  | VStr r => r
  | _ => ""
  end.

Definition apology : string :=
  "Sorry, I couldn't fetch the information at the moment. Please try again later.".

(** The [for (const key in responses)] loop: [botResponse] becomes the
    response of the first key the message includes, and the loop stops
    there. *)
Fixpoint scan (userMessage : string) (entries : list (string * string))
  (botResponse : string) : string :=
  match entries with
  | [] => botResponse
  | (key, r) :: rest =>
      if includes userMessage key then r else scan userMessage rest botResponse
  end.

(** [fetchChatGPTResponse]: one completion call; an error is logged and
    thrown again. *)
Definition fetchChatGPTResponse (e : env) (query : string) : M string :=
  try_catch
    (record_call (EvCompletion query) ;;
     match completion e with
     | Some content => ret content
     | None => throw UpstreamUnavailable
     end)
    (fun error => throw error).

(** [value.toLowerCase()]: a [TypeError] unless the value is a string. *)
Definition call_toLowerCase `{Lowercase} (v : value) : M string :=
  match v with
  | VStr s => ret (toLowerCase s)
  | _ => throw TypeError
  end.

(** [POST /chat]. *)
Definition chat `{Lowercase} (e : env) (req_body : object) : M response :=
  userMessage <- call_toLowerCase (prop req_body "message") ;;
  let botResponse := scan userMessage responses responses_default in
  botResponse <-
    (if String.eqb botResponse responses_default
     then try_catch (fetchChatGPTResponse e userMessage)
                    (fun _ => ret apology)
     else ret botResponse) ;;
  try_catch
    (let conversation :=
       [("userMessage", VStr userMessage);
        ("botResponse", VStr botResponse);
        ("timestamp", VDate (now e))] in
     insertOne e "chatHistory" conversation ;;
     ret tt)
    (fun _ => ret tt) ;;
  ret (json 200 [("message", VStr botResponse)]).

(** ** Newsletter *)

(** [POST /api/subscribe]. *)
Definition subscribe (e : env) (req_body : object) : M response :=
  let email := prop req_body "email" in
  try_catch
    (existingSubscription <- findOne e "subscriptions" [("email", email)] ;;
     match existingSubscription with
     | Some _ =>
         ret (json 400 [("success", VBool false);
                        ("message", VStr "Email already subscribed.")])
     | None =>
         let newSubscription :=
           [("email", email); ("createdAt", VDate (now e))] in
         insertOne e "subscriptions" newSubscription ;;
         ret (json 201 [("success", VBool true);
                        ("message", VStr "Thank you for subscribing!")])
     end)
    (fun _ =>
       ret (json 500 [("success", VBool false);
                      ("message", VStr "Something went wrong. Please try again.")])).

(** ** Diet plans *)

Definition weight_loss_vegetarian : string :=
  "
          <h2>Vegetarian Weight Loss Diet Plan</h2>
          <ul>
            <li><strong>7:00 AM - Breakfast:</strong> Oatmeal with fruits and a handful of nuts</li>
            <li><strong>10:00 AM - Snack:</strong> Greek yogurt with honey</li>
            <li><strong>1:00 PM - Lunch:</strong> Quinoa salad with mixed vegetables and a side of avocado</li>
            <li><strong>4:00 PM - Snack:</strong> A small apple or a handful of almonds</li>
            <li><strong>7:00 PM - Dinner:</strong> Steamed vegetables with tofu and a small portion of brown rice</li>
            <li><strong>9:00 PM - Snack (optional):</strong> A glass of warm skim milk</li>
          </ul>
        ".

Definition weight_loss_other : string :=
  "
          <h2>Non-Vegetarian Weight Loss Diet Plan</h2>
          <ul>
            <li><strong>7:00 AM - Breakfast:</strong> Scrambled eggs with spinach and whole-grain toast</li>
            <li><strong>10:00 AM - Snack:</strong> A boiled egg or a handful of nuts</li>
            <li><strong>1:00 PM - Lunch:</strong> Grilled chicken breast with a side of steamed broccoli and quinoa</li>
            <li><strong>4:00 PM - Snack:</strong> A small apple or a handful of almonds</li>
            <li><strong>7:00 PM - Dinner:</strong> Grilled fish with a side of roasted vegetables</li>
            <li><strong>9:00 PM - Snack (optional):</strong> A glass of warm skim milk</li>
          </ul>
        ".

Definition muscle_gain_vegetarian : string :=
  "
          <h2>Vegetarian Muscle Gain Diet Plan</h2>
          <ul>
            <li><strong>7:00 AM - Breakfast:</strong> Smoothie with banana, spinach, almond milk, and protein powder</li>
            <li><strong>10:00 AM - Snack:</strong> A handful of mixed nuts and a boiled egg</li>
            <li><strong>1:00 PM - Lunch:</strong> Lentil curry with brown rice and a side of avocado</li>
            <li><strong>4:00 PM - Snack:</strong> Greek yogurt with honey and a handful of granola</li>
            <li><strong>7:00 PM - Dinner:</strong> Grilled tofu with sweet potatoes and steamed vegetables</li>
            <li><strong>9:00 PM - Snack (optional):</strong> A glass of warm skim milk with a tablespoon of peanut butter</li>
          </ul>
        ".

Definition muscle_gain_other : string :=
  "
          <h2>Non-Vegetarian Muscle Gain Diet Plan</h2>
          <ul>
            <li><strong>7:00 AM - Breakfast:</strong> Scrambled eggs with whole-grain toast and a side of avocado</li>
            <li><strong>10:00 AM - Snack:</strong> A boiled egg or a handful of nuts</li>
            <li><strong>1:00 PM - Lunch:</strong> Grilled salmon with brown rice and a side of steamed vegetables</li>
            <li><strong>4:00 PM - Snack:</strong> Protein shake with banana and almond milk</li>
            <li><strong>7:00 PM - Dinner:</strong> Grilled chicken breast with sweet potatoes and roasted vegetables</li>
            <li><strong>9:00 PM - Snack (optional):</strong> A glass of warm skim milk with a tablespoon of peanut butter</li>
          </ul>
        ".

Definition maintain_weight_vegetarian : string :=
  "
          <h2>Vegetarian Maintain Weight Diet Plan</h2>
          <ul>
            <li><strong>7:00 AM - Breakfast:</strong> Smoothie with spinach, banana, and almond milk</li>
            <li><strong>10:00 AM - Snack:</strong> A handful of mixed nuts</li>
            <li><strong>1:00 PM - Lunch:</strong> Whole-grain pasta with pesto and a side of avocado</li>
            <li><strong>4:00 PM - Snack:</strong> Greek yogurt with honey</li>
            <li><strong>7:00 PM - Dinner:</strong> Grilled vegetables with quinoa and a side of hummus</li>
            <li><strong>9:00 PM - Snack (optional):</strong> A glass of warm skim milk</li>
          </ul>
        ".

Definition maintain_weight_other : string :=
  "
          <h2>Non-Vegetarian Maintain Weight Diet Plan</h2>
          <ul>
            <li><strong>7:00 AM - Breakfast:</strong> Scrambled eggs with whole-grain toast and a side of avocado</li>
            <li><strong>10:00 AM - Snack:</strong> A boiled egg or a handful of nuts</li>
            <li><strong>1:00 PM - Lunch:</strong> Grilled chicken sandwich with avocado and a side of mixed greens</li>
            <li><strong>4:00 PM - Snack:</strong> A small apple or a handful of almonds</li>
            <li><strong>7:00 PM - Dinner:</strong> Grilled fish with a side of roasted vegetables</li>
            <li><strong>9:00 PM - Snack (optional):</strong> A glass of warm skim milk</li>
          </ul>
        ".

Definition no_plan_selected : string :=
  "<p>No specific plan selected.</p>".

(** The [switch (goal)] of [/send-diet-plan]. *)
Definition dietPlanFor (goal dietPreference : value) : string :=
  if strict_eq_string goal "weight_loss" then
    if strict_eq_string dietPreference "vegetarian"
    then weight_loss_vegetarian else weight_loss_other
  else if strict_eq_string goal "muscle_gain" then
    if strict_eq_string dietPreference "vegetarian"
    then muscle_gain_vegetarian else muscle_gain_other
  else if strict_eq_string goal "maintain_weight" then
    if strict_eq_string dietPreference "vegetarian"
    then maintain_weight_vegetarian else maintain_weight_other
  else no_plan_selected.

(** [POST /send-diet-plan].  The [catch] of the insert returns the 500
    response at once; otherwise the mail body is built, outside of any
    [try], the mail is sent and its callback answers. *)
Definition send_diet_plan (e : env) (req_body : object) : M response :=
  let name := prop req_body "name" in
  let email := prop req_body "email" in
  let goal := prop req_body "goal" in
  let height := prop req_body "height" in
  let weight := prop req_body "weight" in
  let exerciseLevel := prop req_body "exerciseLevel" in
  let dietPreference := prop req_body "dietPreference" in
  let dietPlan := dietPlanFor goal dietPreference in
  returned <-
    try_catch
      (let dietPlanData :=
         [("name", name); ("email", email); ("goal", goal);
          ("height", height); ("weight", weight);
          ("exerciseLevel", exerciseLevel);
          ("dietPreference", dietPreference);
          ("dietPlan", VStr dietPlan)] in
       insertOne e "dietPlans" dietPlanData ;;
       ret None)
      (fun _ =>
         ret (Some (json 500 [("success", VBool false);
                              ("message", VStr "Failed to save diet plan")]))) ;;
  match returned with
  | Some res => ret res
  | None =>
      interpolate [name; goal; height; weight; exerciseLevel;
                   dietPreference; VStr dietPlan] ;;
      error <- sendMail e email "Your Personalized Diet Plan" ;;
      if (error : bool)
      then ret (json 500 [("success", VBool false);
                          ("message", VStr "Failed to send email")])
      else ret (json 200 [("success", VBool true);
                          ("message", VStr "Diet plan sent to your email!")])
  end.

(** ** Appointments *)

(** [POST /book-appointment].  As above, the mail body is built after
    the insert and outside of any [try]. *)
Definition book_appointment (e : env) (req_body : object) : M response :=
  let name := prop req_body "name" in
  let email := prop req_body "email" in
  let phone := prop req_body "phone" in
  let date := prop req_body "date" in
  let time := prop req_body "time" in
  returned <-
    try_catch
      (let appointment :=
         [("name", name); ("email", email); ("phone", phone);
          ("date", date); ("time", time)] in
       insertOne e "appointments" appointment ;;
       ret None)
      (fun _ =>
         ret (Some (json 500 [("success", VBool false);
                              ("message", VStr "Failed to save appointment")]))) ;;
  match returned with
  | Some res => ret res
  | None =>
      interpolate [name; date; time; phone] ;;
      error <- sendMail e email "Appointment Confirmation" ;;
      if (error : bool)
      then ret (json 500 [("success", VBool false);
                          ("message", VStr "Failed to book appointment")])
      else ret (json 200 [("success", VBool true);
                          ("message", VStr "Appointment booked successfully!")])
  end.

(** ** Accounts *)

(** [goals.join(', ')] in the welcome mail: a [TypeError] unless [goals]
    is an array whose elements all convert to strings.  Its result only
    goes into the mail body. *)
Definition call_join (v : value) : M unit :=
  if join_ok v then ret tt else throw TypeError.

(** [POST /get-started].  The password is hashed before the [try]
    block is entered; the mail body is built inside it, after the
    insert. *)
Definition get_started `{Bcrypt} (e : env) (req_body : object) : M response :=
  let firstName := prop req_body "firstName" in
  let lastName := prop req_body "lastName" in
  let email := prop req_body "email" in
  let phone := prop req_body "phone" in
  let password := prop req_body "password" in
  let goals := prop req_body "goals" in
  let saltRounds := 10 in
  hashedPassword <- hash e password saltRounds ;;
  try_catch
    (let userData :=
       [("firstName", firstName); ("lastName", lastName);
        ("email", email); ("phone", phone);
        ("password", VStr hashedPassword); ("goals", goals)] in
     insertOne e "users" userData ;;
     interpolate [firstName; lastName] ;;
     call_join goals ;;
     error <- sendMail e email "Welcome to HealthConnect" ;;
     if (error : bool)
     then ret (json 500 [("success", VBool false);
                         ("message", VStr "Failed to send welcome email")])
     else ret (json 200 [("success", VBool true);
                         ("message", VStr "Thank you for signing up!")]))
    (fun _ =>
       ret (json 500 [("success", VBool false);
                      ("message", VStr "Failed to sign up")])).

(** [POST /signin]. *)
Definition signin `{Bcrypt} (e : env) (req_body : object) : M response :=
  let email := prop req_body "email" in
  let password := prop req_body "password" in
  try_catch
    (user <- findOne e "users" [("email", email)] ;;
     match user with
     | Some user =>
         isPasswordValid <- compare password (prop user "password") ;;
         if (isPasswordValid : bool)
         then ret (json 200 [("success", VBool true);
                             ("message", VStr "Sign-in successful!");
                             ("user", VObj user)])
         else ret (json 401 [("success", VBool false);
                             ("message", VStr "Invalid email or password")])
     | None =>
         ret (json 404 [("success", VBool false);
                        ("message", VStr "User not found")])
     end)
    (fun _ =>
       ret (json 500 [("success", VBool false);
                      ("message", VStr "Failed to sign in")])).

(** ** Routing *)

(** The [POST] routes of the application. *)
Inductive request : Type :=
| PostChat (req_body : object)
| PostSubscribe (req_body : object)
| PostSendDietPlan (req_body : object)
| PostBookAppointment (req_body : object)
| PostGetStarted (req_body : object)
| PostSignin (req_body : object).

Definition handle `{Lowercase} `{Bcrypt} (e : env) (r : request)
  : M response :=
  match r with
  | PostChat b => chat e b
  | PostSubscribe b => subscribe e b
  | PostSendDietPlan b => send_diet_plan e b
  | PostBookAppointment b => book_appointment e b
  | PostGetStarted b => get_started e b
  | PostSignin b => signin e b
  end.

(** Requests served one after the other, each with its own answers from
    the outside; the world after the last one. *)
Fixpoint serve `{Lowercase} `{Bcrypt} (rs : list (env * request)) (w : world)
  : world :=
  match rs with
  | [] => w
  | (e, r) :: rest => serve rest (snd (handle e r w))
  end.

(** * Vocabulary of the statements *)

(** [key] occurs in [s]: the specification's "is a substring of". *)
Definition occurs_in (key s : string) : Prop :=
  exists pre post, s = pre +:+ key +:+ post.

(** The keywords of the table, in the order the specification lists
    them, with their responses: [responses] without its [default]
    entry. *)
Definition keyword_table : list (string * string) := take 5 responses.

(** The keywords alone. *)
Definition keywords : list string := map fst keyword_table.

(** The calls made between two worlds. *)
Definition calls_since (w w' : world) : list event :=
  drop (length (calls w)) (calls w').

(** The text [/chat] answers with, for a lowercased message. *)
Definition chat_reply (e : env) (userMessage : string) : string :=
  let canned := scan userMessage responses responses_default in
  if String.eqb canned responses_default
  then match completion e with
       | Some content => content
       | None => apology
       end
  else canned.

(** The completion call of a chat turn, when there is one. *)
Definition chat_completion_call (userMessage : string) : list event :=
  if String.eqb (scan userMessage responses responses_default) responses_default
  then [EvCompletion userMessage]
  else [].

(** The document a chat turn builds for the history. *)
Definition chat_conversation (e : env) (userMessage : string) : document :=
  [("userMessage", VStr userMessage);
   ("botResponse", VStr (chat_reply e userMessage));
   ("timestamp", VDate (now e))].

(** Upper-case ASCII letters. *)
Definition is_upper (c : ascii) : bool :=
  (65 <=? N_of_ascii c)%N && (N_of_ascii c <=? 90)%N.

(** The insert calls among the calls. *)
Definition is_insert (ev : event) : bool :=
  match ev with
  | EvInsertOne _ _ => true
  | _ => false
  end.

(** The same answers from the outside, except for the insert. *)
Definition with_insert_ok (ok : bool) (e : env) : env :=
  {| completion := completion e; find_ok := find_ok e; insert_ok := ok;
     mail_ok := mail_ok e; now := now e; fresh_id := fresh_id e;
     salt := salt e |}.

(** An empty database with no call made yet. *)
Definition empty_world : world := {| db := ∅; calls := [] |}.

(** An outside where every call succeeds. *)
Definition quiet_env : env :=
  {| completion := Some "Protein timing matters less than the daily total.";
     find_ok := true; insert_ok := true; mail_ok := true;
     now := 1700000000000; fresh_id := "65f0c0ffee"; salt := "N9qo8uLOickgx2ZMRZoMye" |}.

(** The goals the [switch] has a case for. *)
Definition goal_values : list string :=
  ["weight_loss"; "muscle_gain"; "maintain_weight"].

(** The two kinds of preference: ['vegetarian'], and one that is not. *)
Definition preference_values : list string := ["vegetarian"; "other"].

(** The fragments of the six combinations. *)
Definition six_fragments : list string :=
  flat_map (fun g => map (fun p => dietPlanFor (VStr g) (VStr p)) preference_values)
           goal_values.

(** From [w] to [w'] documents were only appended, and only to the
    collections [cs]. *)
Definition appends_to (cs : list string) (w w' : world) : Prop :=
  forall coll, exists added,
    db w' !!! coll = db w !!! coll ++ added /\ (~ In coll cs -> added = []).

(** A handler step that only appends, and only to [cs]. *)
Definition Appends {A} (cs : list string) (m : M A) : Prop :=
  forall w, appends_to cs w (snd (m w)).

(** The collection a route writes to, if any. *)
Definition written_by (r : request) : list string :=
  match r with
  | PostChat _ => ["chatHistory"]
  | PostSubscribe _ => ["subscriptions"]
  | PostSendDietPlan _ => ["dietPlans"]
  | PostBookAppointment _ => ["appointments"]
  | PostGetStarted _ => ["users"]
  | PostSignin _ => []
  end.

(** The document [/send-diet-plan] builds. *)
Definition dietPlanData_of (req_body : object) : document :=
  [("name", prop req_body "name"); ("email", prop req_body "email");
   ("goal", prop req_body "goal"); ("height", prop req_body "height");
   ("weight", prop req_body "weight");
   ("exerciseLevel", prop req_body "exerciseLevel");
   ("dietPreference", prop req_body "dietPreference");
   ("dietPlan", VStr (dietPlanFor (prop req_body "goal")
                                  (prop req_body "dietPreference")))].

(** The document [/book-appointment] builds. *)
Definition appointment_of (req_body : object) : document :=
  [("name", prop req_body "name"); ("email", prop req_body "email");
   ("phone", prop req_body "phone"); ("date", prop req_body "date");
   ("time", prop req_body "time")].

(** Whether the mail body of [/send-diet-plan] can be built: the
    fields its template converts to strings. *)
Definition diet_plan_mail_ok (req_body : object) : bool :=
  forallb (fun key => to_string_ok (prop req_body key))
          ["name"; "goal"; "height"; "weight"; "exerciseLevel";
           "dietPreference"].

(** The same for [/book-appointment]. *)
Definition booking_mail_ok (req_body : object) : bool :=
  forallb (fun key => to_string_ok (prop req_body key))
          ["name"; "date"; "time"; "phone"].

(** The same for the welcome mail of [/get-started]. *)
Definition welcome_mail_ok (req_body : object) : bool :=
  to_string_ok (prop req_body "firstName") &&
  to_string_ok (prop req_body "lastName") &&
  join_ok (prop req_body "goals").

(** A handler that stores into [coll] first and mails afterwards,
    without undoing the insert.  [mail_body_ok] tells the bodies for
    which the mail can be built. *)
Definition persists_before_mail
  (handler : env -> object -> M response) (coll subject : string)
  (mail_body_ok : object -> bool) : Prop :=
  forall e w req_body,
    (insert_ok e = false ->
     (exists res,
         fst (handler e req_body w) = Returned res /\
         status res = 500 /\
         prop (body res) "success" = VBool false) /\
     (forall to subj,
         ~ In (EvSendMail to subj)
              (calls_since w (snd (handler e req_body w)))) /\
     db (snd (handler e req_body w)) = db w) /\
    (insert_ok e = true ->
     exists doc,
       db (snd (handler e req_body w)) =
       <[coll := db w !!! coll ++ [doc]]> (db w)) /\
    (forall res,
        fst (handler e req_body w) = Returned res ->
        insert_ok e = true ->
        (exists doc,
            calls_since w (snd (handler e req_body w)) =
            [EvInsertOne coll doc;
             EvSendMail (prop req_body "email") subject]) /\
        (mail_ok e = false ->
         status res = 500 /\ prop (body res) "success" = VBool false) /\
        (mail_ok e = true ->
         status res = 200 /\ prop (body res) "success" = VBool true)) /\
    (forall res,
        fst (handler e req_body w) = Returned res ->
        (status res = 200 <-> insert_ok e = true /\ mail_ok e = true) /\
        (prop (body res) "success" = VBool true <-> status res = 200)) /\
    (mail_body_ok req_body = true ->
     exists res, fst (handler e req_body w) = Returned res).

(** The string held by a field, if it is one. *)
Definition string_field (key : string) (doc : document) : option string :=
  match prop doc key with
  | VStr s => Some s
  | _ => None
  end.

(** The string emails of a list of documents, in order. *)
Fixpoint emails_in (docs : list document) : list string :=
  match docs with
  | [] => []
  | doc :: rest =>
      match string_field "email" doc with
      | Some s => s :: emails_in rest
      | None => emails_in rest
      end
  end.

(** The [subscriptions] collection. *)
Definition subscriptions_of (w : world) : list document :=
  db w !!! "subscriptions".

(** The [users] collection. *)
Definition users_of (w : world) : list document := db w !!! "users".

(** The user document [/get-started] builds. *)
Definition userData_of `{Bcrypt} (e : env) (req_body : object) (password : string)
  : document :=
  [("firstName", prop req_body "firstName");
   ("lastName", prop req_body "lastName");
   ("email", prop req_body "email");
   ("phone", prop req_body "phone");
   ("password", VStr (bcrypt_hash password 10 (salt e)));
   ("goals", prop req_body "goals")].

(** A stand-in for bcryptjs, to run the handlers on examples: the hash
    is the password behind a fixed prefix, and a stored string without
    that prefix is rejected. *)
Definition example_bcrypt : Bcrypt :=
  {| bcrypt_hash := fun password _ _ => "$2a$10$" +:+ password;
     bcrypt_compare := fun password hashed =>
       if String.prefix "$2a$10$" hashed
       then Some (String.eqb ("$2a$10$" +:+ password) hashed)
       else None |}.

(** A stand-in for [toLowerCase], to run the handlers on examples: only
    the letters [A-Z] are lowered. *)
Definition example_lowercase : Lowercase := {| toLowerCase := ascii_lower |}.

(** A database where ada@example.org already has an account, made with
    the password "first-secret". *)
Definition ada_first_account : document :=
  [("_id", VStr "65f0c0ffed"); ("firstName", VStr "Ada");
   ("lastName", VStr "Lovelace"); ("email", VStr "ada@example.org");
   ("phone", VStr "555-0100");
   ("password", VStr (@bcrypt_hash example_bcrypt "first-secret" 10 ""));
   ("goals", VArr [VStr "strength"])].

(** The database holding that account only. *)
Definition ada_world : world :=
  {| db := {["users" := [ada_first_account]]}; calls := [] |}.

(** A second sign-up with the same email and the password "secret123". *)
Definition ada_signup : object :=
  [("firstName", VStr "Ada"); ("lastName", VStr "Byron");
   ("email", VStr "ada@example.org"); ("phone", VStr "555-0199");
   ("password", VStr "secret123"); ("goals", VArr [VStr "endurance"])].

(** The credentials of that second sign-up. *)
Definition ada_credentials : object :=
  [("email", VStr "ada@example.org"); ("password", VStr "secret123")].

(** A database whose only user has a stored password that is not a
    bcrypt hash. *)
Definition unhashed_world : world :=
  {| db := {["users" :=
              [[("_id", VStr "65f0c0ffec"); ("email", VStr "bob@example.org");
                ("password",
                 VStr "xxxxxxxxxxxxxxxxxxxxxxxxxxxxxxxxxxxxxxxxxxxxxxxxxxxxxxxxxxxx")]]]};
     calls := [] |}.

(** [typeof v === 'string']. *)
Definition is_string (v : value) : bool :=
  match v with
  | VStr _ => true
  | _ => false
  end.

(** The errors thrown outside of any [try]: by [/chat] for a [message]
    that is not a string, by [/get-started] for a [password] that is not
    a string, and by [/send-diet-plan] and [/book-appointment], once the
    insert has succeeded, for a field the mail body cannot convert. *)
Definition escapes (e : env) (r : request) : option js_error :=
  match r with
  | PostChat req_body =>
      if is_string (prop req_body "message") then None else Some TypeError
  | PostGetStarted req_body =>
      if is_string (prop req_body "password") then None
      else Some IllegalArguments
  | PostSendDietPlan req_body =>
      if insert_ok e && negb (diet_plan_mail_ok req_body)
      then Some TypeError else None
  | PostBookAppointment req_body =>
      if insert_ok e && negb (booking_mail_ok req_body)
      then Some TypeError else None
  | PostSubscribe _ => None
  | PostSignin _ => None
  end.

(** Whether serving a request puts a document into [coll].  For the
    four collections written without a lookup this only depends on the
    request and on the insert succeeding. *)
Definition stores_into (coll : string) (er : env * request) : bool :=
  insert_ok (fst er) &&
  match snd er with
  | PostChat req_body =>
      String.eqb coll "chatHistory" && is_string (prop req_body "message")
  | PostSendDietPlan _ => String.eqb coll "dietPlans"
  | PostBookAppointment _ => String.eqb coll "appointments"
  | PostGetStarted req_body =>
      String.eqb coll "users" && is_string (prop req_body "password")
  | PostSubscribe _ => false
  | PostSignin _ => false
  end.

(** * Properties *)

(** ** Substrings *)

Lemma append_cons (c : ascii) (s t : string) :
  String c s +:+ t = String c (s +:+ t).
Proof. reflexivity. Qed.

Lemma append_nil (t : string) : EmptyString +:+ t = t.
Proof. reflexivity. Qed.

Lemma prefix_append (key s : string) :
  String.prefix key s = true <-> exists post, s = key +:+ post.
Proof.
  revert s. induction key as [|a key IH]; intros s.
  - split; [intros _; exists s; reflexivity | intros _; now destruct s].
  - destruct s as [|b s]; simpl.
    + split; [discriminate | intros [post Hp]; discriminate].
    + destruct (ascii_dec a b) as [->|Hab].
      * rewrite IH. split; intros [post Hp]; exists post.
        -- now rewrite append_cons, Hp.
        -- rewrite append_cons in Hp. now inversion Hp.
      * split; [discriminate|].
        intros [post Hp]. rewrite append_cons in Hp. congruence.
Qed.

Lemma includes_occurs (s key : string) :
  includes s key = true <-> occurs_in key s.
Proof.
  unfold occurs_in. induction s as [|c s IH]; cbn [includes].
  - rewrite orb_false_r, prefix_append. split.
    + intros [post Hp]. exists EmptyString, post. exact Hp.
    + intros [pre [post Hp]]. destruct pre; [|discriminate].
      exists post. exact Hp.
  - rewrite orb_true_iff, prefix_append, IH. split.
    + intros [[post Hp]|[pre [post Hp]]].
      * exists EmptyString, post. exact Hp.
      * exists (String c pre), post. now rewrite append_cons, Hp.
    + intros [pre [post Hp]]. destruct pre as [|c' pre].
      * left. exists post. exact Hp.
      * right. exists pre, post. rewrite append_cons in Hp. now inversion Hp.
Qed.

Lemma includes_not_occurs (s key : string) :
  includes s key = false <-> ~ occurs_in key s.
Proof.
  rewrite <- includes_occurs. destruct (includes s key); split; intros; congruence.
Qed.

(** ** The keyword scan *)

Lemma responses_split :
  responses = keyword_table ++ [("default", responses_default)].
Proof. reflexivity. Qed.

Lemma scan_app um before after d :
  (forall kr, In kr before -> includes um (fst kr) = false) ->
  scan um (before ++ after) d = scan um after d.
Proof.
  induction before as [|[k r] before IH]; intros Hb; simpl.
  - reflexivity.
  - pose proof (Hb (k, r) (or_introl eq_refl)) as Hk. simpl in Hk.
    rewrite Hk. apply IH. intros kr Hin. apply Hb. right. exact Hin.
Qed.

Lemma scan_hit um before key r after d :
  (forall kr, In kr before -> includes um (fst kr) = false) ->
  includes um key = true ->
  scan um (before ++ (key, r) :: after) d = r.
Proof.
  intros Hb Hk. rewrite scan_app by exact Hb. simpl. now rewrite Hk.
Qed.

(** The scan over the whole [responses] object: the [default] key, when
    it matches, assigns the default again. *)
Lemma scan_responses um :
  scan um responses responses_default = scan um keyword_table responses_default.
Proof.
  rewrite responses_split.
  generalize keyword_table as t. induction t as [|[k r] t IH]; simpl.
  - now destruct (includes um "default").
  - now rewrite IH.
Qed.

Lemma scan_miss um t d :
  (forall kr, In kr t -> includes um (fst kr) = false) ->
  scan um t d = d.
Proof.
  intros Ht. rewrite <- (app_nil_r t). now rewrite scan_app.
Qed.

Lemma scan_found um t d :
  (exists kr, In kr t /\ includes um (fst kr) = true) ->
  exists kr, In kr t /\ scan um t d = snd kr.
Proof.
  induction t as [|[k r] t IH]; intros [kr [Hin Hinc]]; simpl.
  - destruct Hin.
  - destruct (includes um k) eqn:Hk.
    + exists (k, r). split; [left; reflexivity | reflexivity].
    + destruct Hin as [<-|Hin]; [simpl in Hinc; congruence|].
      destruct IH as [kr' [Hin' Hs]]; [exists kr; auto|].
      exists kr'. split; [right; exact Hin' | exact Hs].
Qed.

(** No canned response of a keyword is the default text. *)
Lemma canned_not_default kr :
  In kr keyword_table -> String.eqb (snd kr) responses_default = false.
Proof.
  intros Hin. cbv [keyword_table take responses] in Hin. simpl in Hin.
  repeat (destruct Hin as [<-|Hin]; [vm_compute; reflexivity|]).
  destruct Hin.
Qed.

(** The fallback is entered exactly when no keyword matched. *)
Lemma scan_default_iff um :
  String.eqb (scan um responses responses_default) responses_default = true <->
  forall kr, In kr keyword_table -> includes um (fst kr) = false.
Proof.
  rewrite scan_responses. split.
  - intros Heq kr Hin. destruct (includes um (fst kr)) eqn:Hinc; [|reflexivity].
    destruct (scan_found um keyword_table responses_default) as [kr' [Hin' Hs]].
    { exists kr. auto. }
    rewrite Hs, canned_not_default in Heq by exact Hin'. discriminate.
  - intros Hmiss. rewrite scan_miss by exact Hmiss. apply String.eqb_refl.
Qed.

(** ** What one chat request does *)

Lemma calls_since_app w w' new :
  calls w' = calls w ++ new -> calls_since w w' = new.
Proof. intros Hc. unfold calls_since. rewrite Hc. apply drop_app_length. Qed.

Lemma chat_run `{Lowercase} e w req_body message :
  prop req_body "message" = VStr message ->
  chat e req_body w =
    (Returned (json 200 [("message", VStr (chat_reply e (toLowerCase message)))]),
     {| db :=
          if insert_ok e
          then <["chatHistory" :=
                   db w !!! "chatHistory" ++
                   [("_id", VStr (fresh_id e))
                    :: chat_conversation e (toLowerCase message)]]> (db w)
          else db w;
        calls :=
          calls w ++ chat_completion_call (toLowerCase message) ++
          [EvInsertOne "chatHistory" (chat_conversation e (toLowerCase message))] |}).
Proof.
  intros Hmsg.
  unfold chat, chat_conversation, chat_reply, chat_completion_call.
  rewrite Hmsg.
  cbv [bind try_catch call_toLowerCase fetchChatGPTResponse insertOne
       record_call ret throw].
  destruct (String.eqb (scan (toLowerCase message) responses responses_default)
                       responses_default);
    destruct (completion e); destruct (insert_ok e);
    cbv [db calls]; rewrite <- ?app_assoc; reflexivity.
Qed.

Lemma chat_throws `{Lowercase} e w req_body :
  (forall message, prop req_body "message" <> VStr message) ->
  chat e req_body w = (Thrown TypeError, w).
Proof.
  intros Hmsg. unfold chat.
  destruct (prop req_body "message") eqn:Hp; try reflexivity.
  now elim (Hmsg s).
Qed.

Lemma chat_reply_canned e um before key canned after :
  keyword_table = before ++ (key, canned) :: after ->
  includes um key = true ->
  (forall kr, In kr before -> includes um (fst kr) = false) ->
  chat_reply e um = canned.
Proof.
  intros Ht Hk Hb. unfold chat_reply.
  rewrite scan_responses, Ht, (scan_hit um before key canned after) by assumption.
  change canned with (snd (key, canned)) at 1.
  rewrite canned_not_default; [reflexivity|].
  rewrite Ht. apply in_or_app. right. left. reflexivity.
Qed.

Lemma chat_reply_fallback e um :
  (forall kr, In kr keyword_table -> includes um (fst kr) = false) ->
  chat_reply e um = match completion e with
                    | Some content => content
                    | None => apology
                    end.
Proof.
  intros Hmiss. unfold chat_reply.
  now rewrite (proj2 (scan_default_iff um) Hmiss).
Qed.

Lemma keywords_miss_iff um :
  (forall kr, In kr keyword_table -> includes um (fst kr) = false) <->
  (forall key, In key keywords -> ~ occurs_in key um).
Proof.
  unfold keywords. split.
  - intros H key Hin. apply in_map_iff in Hin as [kr [<- Hin]].
    apply includes_not_occurs. now apply H.
  - intros H kr Hin. apply includes_not_occurs. apply H.
    apply in_map_iff. exists kr. split; [reflexivity | exact Hin].
Qed.

Lemma chat_completion_call_iff um :
  (exists query, In (EvCompletion query) (chat_completion_call um)) <->
  (forall key, In key keywords -> ~ occurs_in key um).
Proof.
  rewrite <- keywords_miss_iff, <- scan_default_iff. unfold chat_completion_call.
  destruct (String.eqb (scan um responses responses_default) responses_default).
  - split; [reflexivity | intros _; exists um; left; reflexivity].
  - split; [intros [q []] | discriminate].
Qed.

Lemma lower_ascii_not_upper c : is_upper (lower_ascii c) = false.
Proof. destruct c as [[] [] [] [] [] [] [] []]; reflexivity. Qed.

Lemma ascii_lower_no_upper s :
  forallb (fun c => negb (is_upper c)) (list_ascii_of_string (ascii_lower s)) = true.
Proof.
  induction s as [|c s IH]; simpl; [reflexivity|].
  now rewrite lower_ascii_not_upper, IH.
Qed.

(** ** Claims about [/chat] *)

(** C2: keyword matching is first-match over the ordered table (hello,
    hi, workout splits, diet plans, fitness advice): the answer to a
    message is the canned response of the first keyword of the table that
    occurs in the lowercased message, whatever the case mappings of
    [toLowerCase] are; the message "hi there, tell me about diet plans",
    in any mix of upper and lower case, gets the response of "hi". *)
Theorem chat_first_match_wins :
  keywords = ["hello"; "hi"; "workout splits"; "diet plans"; "fitness advice"] /\
  (forall (L : Lowercase) e w req_body message before key canned after,
      prop req_body "message" = VStr message ->
      keyword_table = before ++ (key, canned) :: after ->
      occurs_in key (toLowerCase message) ->
      (forall earlier, In earlier (map fst before) ->
                       ~ occurs_in earlier (toLowerCase message)) ->
      fst (chat e req_body w) =
      Returned (json 200 [("message", VStr canned)])) /\
  (forall (L : Lowercase), LowercaseAscii L ->
    forall e w message,
      is_ascii message = true ->
      ascii_lower message = "hi there, tell me about diet plans" ->
      fst (chat e [("message", VStr message)] w) =
      Returned (json 200 [("message", VStr "Hi there! How can I help you?")])) /\
  prop (map (fun kr => (fst kr, VStr (snd kr))) keyword_table) "diet plans"
  <> VStr "Hi there! How can I help you?".
Proof.
  split; [reflexivity|]. split; [|split].
  - intros L e w req_body message before key canned after Hmsg Ht Hk Hb.
    rewrite (chat_run e w req_body message Hmsg). cbn [fst].
    rewrite (chat_reply_canned e _ before key canned after Ht); [reflexivity| |].
    + now apply includes_occurs.
    + intros kr Hin. apply includes_not_occurs. apply Hb.
      apply in_map_iff. exists kr. split; [reflexivity | exact Hin].
  - intros L HL e w message Hascii Hlower.
    rewrite (chat_run e w [("message", VStr message)] message eq_refl).
    cbn [fst]. rewrite (toLowerCase_ascii message Hascii), Hlower.
    rewrite (chat_reply_canned e _ (take 1 keyword_table) "hi"
               "Hi there! How can I help you?" (drop 2 keyword_table));
      [reflexivity | reflexivity | reflexivity |].
    intros kr Hin. vm_compute in Hin. destruct Hin as [<-|[]]. reflexivity.
  - vm_compute. discriminate.
Qed.

(** The stand-in lowers ASCII strings as required. *)
Lemma example_lowercase_ascii : LowercaseAscii example_lowercase.
Proof. split. intros s _. reflexivity. Qed.

(** A run of C2: "Tell me about DIET PLANS" contains none of hello, hi,
    workout splits and gets the diet-plan response; "Hi There, tell me
    about Diet Plans" gets the response of "hi". *)
Lemma chat_first_match_wins_witness :
  (exists canned,
      nth_error keyword_table 3 = Some ("diet plans", canned) /\
      fst (@chat example_lowercase quiet_env
             [("message", VStr "Tell me about DIET PLANS")] empty_world) =
      Returned (json 200 [("message", VStr canned)])) /\
  fst (@chat example_lowercase quiet_env
         [("message", VStr "Hi There, tell me about Diet Plans")] empty_world) =
  Returned (json 200 [("message", VStr "Hi there! How can I help you?")]).
Proof.
  split.
  - eexists. split; [reflexivity|].
    apply (proj1 (proj2 chat_first_match_wins) example_lowercase quiet_env
             empty_world [("message", VStr "Tell me about DIET PLANS")]
             "Tell me about DIET PLANS"
             (take 3 keyword_table) "diet plans" _ (drop 4 keyword_table)).
    + reflexivity.
    + reflexivity.
    + apply includes_occurs. vm_compute. reflexivity.
    + intros earlier Hin. apply includes_not_occurs.
      vm_compute in Hin.
      destruct Hin as [<-|[<-|[<-|[]]]]; vm_compute; reflexivity.
  - apply (proj1 (proj2 (proj2 chat_first_match_wins)) example_lowercase
             example_lowercase_ascii quiet_env empty_world
             "Hi There, tell me about Diet Plans"); reflexivity.
Defined.

(** C3: [/chat] calls the completion API exactly when no keyword of the
    table occurs in the lowercased message, whatever the case mappings of
    [toLowerCase] are; when it is called and the call fails, the answer
    is the apology with status 200.  For an ASCII message the lowercased
    message is the message with its letters [A-Z] lowered: "hello", in
    any mix of upper and lower case, is answered with the hello response
    and no call to the API. *)
Theorem chat_completion_only_on_miss :
  (forall (L : Lowercase) e w req_body message,
      prop req_body "message" = VStr message ->
      ((exists query,
           In (EvCompletion query) (calls_since w (snd (chat e req_body w)))) <->
       (forall key, In key keywords -> ~ occurs_in key (toLowerCase message))) /\
      ((exists query,
           In (EvCompletion query) (calls_since w (snd (chat e req_body w)))) ->
       completion e = None ->
       fst (chat e req_body w) =
       Returned (json 200 [("message", VStr apology)]))) /\
  (forall (L : Lowercase), LowercaseAscii L ->
    forall e w req_body message,
      prop req_body "message" = VStr message ->
      is_ascii message = true ->
      ((exists query,
           In (EvCompletion query) (calls_since w (snd (chat e req_body w)))) <->
       (forall key, In key keywords -> ~ occurs_in key (ascii_lower message))) /\
      (ascii_lower message = "hello" ->
       fst (chat e req_body w) =
       Returned (json 200 [("message",
         VStr "Hello! Welcome to HealthConnect. How can I assist you today?")]) /\
       forall query,
         ~ In (EvCompletion query) (calls_since w (snd (chat e req_body w))))).
Proof.
  assert (Hcalls : forall (L : Lowercase) e w req_body message,
             prop req_body "message" = VStr message ->
             forall query,
               In (EvCompletion query) (calls_since w (snd (chat e req_body w))) <->
               In (EvCompletion query) (chat_completion_call (toLowerCase message))).
  { intros L e w req_body message Hmsg query.
    rewrite (chat_run e w req_body message Hmsg). cbn [snd].
    erewrite calls_since_app by reflexivity.
    rewrite in_app_iff. cbn [In]. split; [|tauto].
    intros [H|[H|[]]]; [exact H | discriminate]. }
  assert (Hiff : forall (L : Lowercase) e w req_body message,
             prop req_body "message" = VStr message ->
             (exists query,
                 In (EvCompletion query)
                    (calls_since w (snd (chat e req_body w)))) <->
             (forall key, In key keywords ->
                          ~ occurs_in key (toLowerCase message))).
  { intros L e w req_body message Hmsg.
    rewrite <- chat_completion_call_iff.
    split; intros [q Hq]; exists q; now apply (Hcalls L e w req_body message Hmsg). }
  split.
  - intros L e w req_body message Hmsg.
    split; [exact (Hiff L e w req_body message Hmsg)|].
    intros Hcalled Hfail.
    pose proof (proj2 (keywords_miss_iff _)
                  (proj1 (Hiff L e w req_body message Hmsg) Hcalled)) as Hmiss.
    rewrite (chat_run e w req_body message Hmsg). cbn [fst].
    now rewrite (chat_reply_fallback e _ Hmiss), Hfail.
  - intros L HL e w req_body message Hmsg Hascii. split.
    + rewrite <- (toLowerCase_ascii message Hascii).
      exact (Hiff L e w req_body message Hmsg).
    + intros Hhello. split.
      * rewrite (chat_run e w req_body message Hmsg).
        rewrite (toLowerCase_ascii message Hascii), Hhello. reflexivity.
      * intros query Hin.
        apply (Hcalls L e w req_body message Hmsg) in Hin.
        rewrite (toLowerCase_ascii message Hascii), Hhello in Hin.
        vm_compute in Hin. exact Hin.
Qed.

(** A run of C3: "Tell me about PROTEIN timing" matches no keyword, the
    API is asked, the call fails and the answer is the apology with status
    200; "HELLO" is answered without asking the API. *)
Lemma chat_completion_only_on_miss_witness :
  let e := {| completion := None; find_ok := true; insert_ok := true;
              mail_ok := true; now := 0; fresh_id := "65f0c0ffee";
              salt := "" |} in
  let req_body := [("message", VStr "Tell me about PROTEIN timing")] in
  (In (EvCompletion "tell me about protein timing")
      (calls_since empty_world
         (snd (@chat example_lowercase e req_body empty_world))) /\
   fst (@chat example_lowercase e req_body empty_world) =
   Returned (json 200 [("message", VStr apology)])) /\
  forall query,
    ~ In (EvCompletion query)
         (calls_since empty_world
            (snd (@chat example_lowercase e [("message", VStr "HELLO")]
                    empty_world))).
Proof.
  intros e req_body. split.
  - split; [vm_compute; left; reflexivity|].
    apply (proj1 chat_completion_only_on_miss example_lowercase e empty_world
             req_body "Tell me about PROTEIN timing" eq_refl).
    + exists "tell me about protein timing". vm_compute. left. reflexivity.
    + reflexivity.
  - apply (proj2 chat_completion_only_on_miss example_lowercase
             example_lowercase_ascii e empty_world
             [("message", VStr "HELLO")] "HELLO" eq_refl eq_refl).
    reflexivity.
Defined.

(** C9: every chat exchange makes one insert into [chatHistory], of the
    document (userMessage, botResponse, timestamp), as its last call, that
    is after the response text is known; the collection gains that one
    document when the insert succeeds, and the response (body and status
    200) is the same whether the insert succeeds or fails. *)
Theorem chat_logs_every_exchange :
  forall (L : Lowercase) e w req_body message,
    prop req_body "message" = VStr message ->
    exists botResponse before,
      fst (chat e req_body w) =
      Returned (json 200 [("message", VStr botResponse)]) /\
      calls_since w (snd (chat e req_body w)) =
      before ++ [EvInsertOne "chatHistory"
                   [("userMessage", VStr (toLowerCase message));
                    ("botResponse", VStr botResponse);
                    ("timestamp", VDate (now e))]] /\
      (forall coll doc, ~ In (EvInsertOne coll doc) before) /\
      (insert_ok e = true ->
       db (snd (chat e req_body w)) !!! "chatHistory" =
       db w !!! "chatHistory" ++
       [("_id", VStr (fresh_id e))
        :: [("userMessage", VStr (toLowerCase message));
            ("botResponse", VStr botResponse);
            ("timestamp", VDate (now e))]]) /\
      (insert_ok e = false -> db (snd (chat e req_body w)) = db w) /\
      (forall ok,
          fst (chat (with_insert_ok ok e) req_body w) = fst (chat e req_body w)).
Proof.
  intros L e w req_body message Hmsg.
  exists (chat_reply e (toLowerCase message)),
         (chat_completion_call (toLowerCase message)).
  rewrite (chat_run e w req_body message Hmsg). cbn [fst snd db].
  split; [reflexivity|]. split; [|split; [|split; [|split]]].
  - erewrite calls_since_app by reflexivity. reflexivity.
  - intros coll doc. unfold chat_completion_call.
    destruct (String.eqb _ _); [intros [H|[]]; discriminate | intros []].
  - intros ->. apply lookup_total_insert_eq.
  - intros ->. reflexivity.
  - intros ok. now rewrite (chat_run _ w req_body message Hmsg).
Qed.

(** A run of C9: "Hello" with a failing insert is answered as with a
    working one, and the database is left as it was. *)
Lemma chat_logs_every_exchange_witness :
  let req_body := [("message", VStr "Hello")] in
  let e := with_insert_ok false quiet_env in
  fst (@chat example_lowercase e req_body empty_world) =
  fst (@chat example_lowercase quiet_env req_body empty_world) /\
  db (snd (@chat example_lowercase e req_body empty_world)) = db empty_world.
Proof.
  intros req_body e.
  destruct (chat_logs_every_exchange example_lowercase e empty_world req_body
              "Hello" eq_refl)
    as [botResponse [before [_ [_ [_ [_ [Hdb Hsame]]]]]]].
  split.
  - symmetry. exact (Hsame true).
  - apply Hdb. reflexivity.
Defined.

(** C10: for a string message, the document written to [chatHistory]
    holds as [userMessage] the message lowercased by [toLowerCase], and as
    [botResponse] the string returned in the [message] field of the
    response body.  The original casing is not persisted: the document is
    the same for any two messages with the same lowercased form, and for
    an ASCII message [userMessage] is the message with its letters [A-Z]
    lowered, with no upper-case letter left. *)
Theorem chat_history_document :
  forall (L : Lowercase) e w req_body message,
    prop req_body "message" = VStr message ->
    exists res doc,
      fst (chat e req_body w) = Returned res /\
      List.filter is_insert (calls_since w (snd (chat e req_body w))) =
      [EvInsertOne "chatHistory" doc] /\
      db (snd (chat e req_body w)) !!! "chatHistory" =
      db w !!! "chatHistory" ++
      (if insert_ok e then [("_id", VStr (fresh_id e)) :: doc] else []) /\
      map fst doc = ["userMessage"; "botResponse"; "timestamp"] /\
      prop doc "userMessage" = VStr (toLowerCase message) /\
      prop doc "botResponse" = prop (body res) "message" /\
      (exists botResponse, prop (body res) "message" = VStr botResponse) /\
      (forall req_body' message',
          prop req_body' "message" = VStr message' ->
          toLowerCase message' = toLowerCase message ->
          List.filter is_insert (calls_since w (snd (chat e req_body' w))) =
          [EvInsertOne "chatHistory" doc]) /\
      (LowercaseAscii L -> is_ascii message = true ->
       prop doc "userMessage" = VStr (ascii_lower message) /\
       forallb (fun c => negb (is_upper c))
               (list_ascii_of_string (ascii_lower message)) = true).
Proof.
  intros L e w req_body message Hmsg.
  eexists. exists (chat_conversation e (toLowerCase message)).
  rewrite (chat_run e w req_body message Hmsg). cbn [fst snd db].
  assert (Hins : forall um,
             List.filter is_insert
               (chat_completion_call um ++
                [EvInsertOne "chatHistory" (chat_conversation e um)]) =
             [EvInsertOne "chatHistory" (chat_conversation e um)]).
  { intros um. unfold chat_completion_call. now destruct (String.eqb _ _). }
  split; [reflexivity|].
  split; [|split; [|split; [|split; [|split; [|split; [|split]]]]]].
  - erewrite calls_since_app by reflexivity. apply Hins.
  - destruct (insert_ok e).
    + apply lookup_total_insert_eq.
    + now rewrite app_nil_r.
  - reflexivity.
  - reflexivity.
  - reflexivity.
  - eexists. reflexivity.
  - intros req_body' message' Hmsg' Hsame.
    rewrite (chat_run e w req_body' message' Hmsg'). cbn [snd].
    erewrite calls_since_app by reflexivity. rewrite Hsame. apply Hins.
  - intros HL Hascii. rewrite <- (toLowerCase_ascii message Hascii).
    split; [reflexivity|].
    rewrite (toLowerCase_ascii message Hascii). apply ascii_lower_no_upper.
Qed.

(** A run of C10: "Hello THERE" is stored as "hello there". *)
Lemma chat_history_document_witness :
  exists doc,
    db (snd (@chat example_lowercase quiet_env
               [("message", VStr "Hello THERE")] empty_world))
      !!! "chatHistory" = [("_id", VStr (fresh_id quiet_env)) :: doc] /\
    prop doc "userMessage" = VStr "hello there".
Proof.
  destruct (chat_history_document example_lowercase quiet_env empty_world
              [("message", VStr "Hello THERE")] "Hello THERE" eq_refl)
    as [res [doc [_ [_ [Hdb [_ [_ [_ [_ [_ Hascii]]]]]]]]]].
  exists doc. split; [exact Hdb|].
  exact (proj1 (Hascii example_lowercase_ascii eq_refl)).
Defined.

(** ** Claims about the diet plan *)

(** C8: the diet plan is a function of (goal, dietPreference) alone; the
    six combinations of the three goals with vegetarian or not give
    non-empty, pairwise distinct fragments; the preference only matters
    through being ['vegetarian'] or not; and every other goal gives the
    default fragment whatever the preference. *)
Theorem diet_plan_table :
  (forall g dp, In g goal_values -> dietPlanFor (VStr g) dp <> "") /\
  (forall goal dp,
      dietPlanFor goal dp =
      dietPlanFor goal (if strict_eq_string dp "vegetarian"
                        then VStr "vegetarian" else VStr "other")) /\
  length six_fragments = 6 /\
  NoDup six_fragments /\
  (forall goal dp,
      (forall g, In g goal_values -> goal <> VStr g) ->
      dietPlanFor goal dp = "<p>No specific plan selected.</p>").
Proof.
  split; [|split; [|split; [|split]]].
  - intros g dp Hin. unfold dietPlanFor.
    destruct Hin as [<-|[<-|[<-|[]]]]; cbn [strict_eq_string];
      destruct (strict_eq_string dp "vegetarian"); vm_compute; discriminate.
  - intros goal dp. unfold dietPlanFor.
    destruct (strict_eq_string dp "vegetarian"); reflexivity.
  - reflexivity.
  - apply (bool_decide_unpack _). vm_compute. reflexivity.
  - intros goal dp Hother. unfold dietPlanFor.
    destruct goal as [| | | |g| | |]; try reflexivity.
    cbn [strict_eq_string].
    destruct (String.eqb_spec g "weight_loss") as [->|_].
    { now elim (Hother "weight_loss"); [left|]. }
    destruct (String.eqb_spec g "muscle_gain") as [->|_].
    { now elim (Hother "muscle_gain"); [right; left|]. }
    destruct (String.eqb_spec g "maintain_weight") as [->|_].
    { now elim (Hother "maintain_weight"); [right; right; left|]. }
    reflexivity.
Qed.

(** A run of C8: the goal "other" gives the default fragment, and a
    numeric preference counts as not vegetarian. *)
Lemma diet_plan_table_witness :
  dietPlanFor (VStr "other") (VStr "vegetarian") = no_plan_selected /\
  dietPlanFor (VStr "muscle_gain") (VNum 3) <> "".
Proof.
  destruct diet_plan_table as [Hne [_ [_ [_ Hdef]]]]. split.
  - apply Hdef. intros g [<-|[<-|[<-|[]]]]; discriminate.
  - apply Hne. right. left. reflexivity.
Defined.

(** ** Collections only grow *)

Lemma appends_to_refl cs w : appends_to cs w w.
Proof. intros coll. exists []. now rewrite app_nil_r. Qed.

Lemma appends_to_trans cs w1 w2 w3 :
  appends_to cs w1 w2 -> appends_to cs w2 w3 -> appends_to cs w1 w3.
Proof.
  intros H12 H23 coll.
  destruct (H12 coll) as [l1 [E1 N1]]. destruct (H23 coll) as [l2 [E2 N2]].
  exists (l1 ++ l2). split.
  - now rewrite E2, E1, app_assoc.
  - intros Hn. now rewrite (N1 Hn), (N2 Hn).
Qed.

Lemma appends_to_weaken cs cs' w w' :
  (forall c, In c cs -> In c cs') -> appends_to cs w w' -> appends_to cs' w w'.
Proof.
  intros Hsub H coll. destruct (H coll) as [l [E N]].
  exists l. split; [exact E | intros Hn; apply N; auto].
Qed.

Lemma Appends_ret {A} cs (a : A) : Appends cs (ret a).
Proof. intros w. apply appends_to_refl. Qed.

Lemma Appends_throw {A} cs err : Appends cs (@throw A err).
Proof. intros w. apply appends_to_refl. Qed.

Lemma Appends_bind {A B} cs (m : M A) (k : A -> M B) :
  Appends cs m -> (forall a, Appends cs (k a)) -> Appends cs (bind m k).
Proof.
  intros Hm Hk w. unfold bind. specialize (Hm w).
  destruct (m w) as [[a|err] w']; cbn [snd] in *.
  - eapply appends_to_trans; [exact Hm | apply Hk].
  - exact Hm.
Qed.

Lemma Appends_try_catch {A} cs (m : M A) (h : js_error -> M A) :
  Appends cs m -> (forall err, Appends cs (h err)) -> Appends cs (try_catch m h).
Proof.
  intros Hm Hh w. unfold try_catch. specialize (Hm w).
  destruct (m w) as [[a|err] w']; cbn [snd] in *.
  - exact Hm.
  - eapply appends_to_trans; [exact Hm | apply Hh].
Qed.

Lemma Appends_record_call cs ev : Appends cs (record_call ev).
Proof. intros w coll. exists []. cbn [record_call snd db]. now rewrite app_nil_r. Qed.

Lemma Appends_findOne cs e coll filter : Appends cs (findOne e coll filter).
Proof.
  unfold findOne. apply Appends_bind; [apply Appends_record_call|].
  intros _. destruct (find_ok e); [|apply Appends_throw].
  intros w. apply appends_to_refl.
Qed.

Lemma Appends_insertOne cs e coll doc :
  In coll cs -> Appends cs (insertOne e coll doc).
Proof.
  intros Hin. unfold insertOne.
  apply Appends_bind; [apply Appends_record_call|].
  intros _. destruct (insert_ok e); [|apply Appends_throw].
  intros w c. cbn [snd db].
  destruct (decide (coll = c)) as [<-|Hne].
  - eexists. rewrite lookup_total_insert_eq. split; [reflexivity|].
    intros Hn. contradiction.
  - exists []. rewrite lookup_total_insert_ne by exact Hne.
    now rewrite app_nil_r.
Qed.

Lemma Appends_sendMail cs e to subject : Appends cs (sendMail e to subject).
Proof.
  unfold sendMail. apply Appends_bind; [apply Appends_record_call|].
  intros _. apply Appends_ret.
Qed.

Lemma Appends_hash `{Bcrypt} cs e s rounds : Appends cs (hash e s rounds).
Proof. destruct s; first [apply Appends_ret | apply Appends_throw]. Qed.

Lemma Appends_compare `{Bcrypt} cs s hashed : Appends cs (compare s hashed).
Proof.
  destruct s; try apply Appends_throw.
  destruct hashed; try apply Appends_throw.
  cbn [compare]. destruct (bcrypt_compare _ _);
    [apply Appends_ret | apply Appends_throw].
Qed.

Lemma Appends_call_join cs v : Appends cs (call_join v).
Proof.
  unfold call_join. destruct (join_ok v);
    [apply Appends_ret | apply Appends_throw].
Qed.

Lemma Appends_interpolate cs vs : Appends cs (interpolate vs).
Proof.
  unfold interpolate. destruct (forallb to_string_ok vs);
    [apply Appends_ret | apply Appends_throw].
Qed.

Lemma Appends_call_toLowerCase `{Lowercase} cs v :
  Appends cs (call_toLowerCase v).
Proof. destruct v; first [apply Appends_ret | apply Appends_throw]. Qed.

Lemma Appends_fetchChatGPTResponse cs e query :
  Appends cs (fetchChatGPTResponse e query).
Proof.
  unfold fetchChatGPTResponse. apply Appends_try_catch.
  - apply Appends_bind; [apply Appends_record_call|].
    intros _. destruct (completion e); [apply Appends_ret | apply Appends_throw].
  - intros err. apply Appends_throw.
Qed.

Create HintDb appends.
#[local] Hint Resolve Appends_ret Appends_throw Appends_record_call
  Appends_findOne Appends_sendMail Appends_hash Appends_compare
  Appends_call_join Appends_call_toLowerCase Appends_fetchChatGPTResponse
  Appends_interpolate
  : appends.

(** Goes through a handler body: binds and [try] blocks are split,
    branches are taken one by one, and the leaves are the calls above. *)
Ltac appends_step :=
  match goal with
  | |- Appends _ (bind _ _) => apply Appends_bind; [|intros ?]
  | |- Appends _ (try_catch _ _) => apply Appends_try_catch; [|intros ?]
  | |- Appends _ (insertOne _ _ _) =>
      apply Appends_insertOne; cbn [In]; tauto
  | |- Appends _ (match ?x with _ => _ end) => destruct x
  | |- Appends _ _ => solve [auto with appends]
  end.

Ltac appends := repeat appends_step.

Lemma chat_appends `{Lowercase} e req_body :
  Appends ["chatHistory"] (chat e req_body).
Proof. unfold chat. appends. Qed.

Lemma subscribe_appends e req_body :
  Appends ["subscriptions"] (subscribe e req_body).
Proof. unfold subscribe. appends. Qed.

Lemma send_diet_plan_appends e req_body :
  Appends ["dietPlans"] (send_diet_plan e req_body).
Proof. unfold send_diet_plan. appends. Qed.

Lemma book_appointment_appends e req_body :
  Appends ["appointments"] (book_appointment e req_body).
Proof. unfold book_appointment. appends. Qed.

Lemma get_started_appends `{Bcrypt} e req_body :
  Appends ["users"] (get_started e req_body).
Proof. unfold get_started. appends. Qed.

Lemma signin_appends `{Bcrypt} e req_body : Appends [] (signin e req_body).
Proof. unfold signin. appends. Qed.

Lemma handle_appends `{Lowercase} `{Bcrypt} e r :
  Appends (written_by r) (handle e r).
Proof.
  destruct r; cbn [handle written_by];
    auto using chat_appends, subscribe_appends, send_diet_plan_appends,
      book_appointment_appends, get_started_appends, signin_appends.
Qed.

(** Whatever is served, a collection keeps the documents it had, in
    front and in order. *)
Lemma serve_grows `{Lowercase} `{Bcrypt} rs w coll :
  exists added, db (serve rs w) !!! coll = db w !!! coll ++ added.
Proof.
  revert w. induction rs as [|[e r] rs IH]; intros w; cbn [serve].
  - exists []. now rewrite app_nil_r.
  - destruct (IH (snd (handle e r w))) as [l2 E2].
    destruct (handle_appends e r w coll) as [l1 [E1 _]].
    exists (l1 ++ l2). now rewrite E2, E1, app_assoc.
Qed.

(** ** Claims about [/send-diet-plan] and [/book-appointment] *)

Lemma diet_plan_template_ok req_body :
  forallb to_string_ok
    [prop req_body "name"; prop req_body "goal"; prop req_body "height";
     prop req_body "weight"; prop req_body "exerciseLevel";
     prop req_body "dietPreference";
     VStr (dietPlanFor (prop req_body "goal") (prop req_body "dietPreference"))]
  = diet_plan_mail_ok req_body.
Proof.
  unfold diet_plan_mail_ok. cbn [forallb]. cbn [to_string_ok andb].
  reflexivity.
Qed.

Lemma booking_template_ok req_body :
  forallb to_string_ok
    [prop req_body "name"; prop req_body "date"; prop req_body "time";
     prop req_body "phone"]
  = booking_mail_ok req_body.
Proof. reflexivity. Qed.

Lemma send_diet_plan_run e w req_body :
  send_diet_plan e req_body w =
  let inserted := [EvInsertOne "dietPlans" (dietPlanData_of req_body)] in
  if insert_ok e then
    let stored :=
      <["dietPlans" :=
          db w !!! "dietPlans" ++
          [("_id", VStr (fresh_id e)) :: dietPlanData_of req_body]]> (db w) in
    if diet_plan_mail_ok req_body then
      (Returned
         (if mail_ok e
          then json 200 [("success", VBool true);
                         ("message", VStr "Diet plan sent to your email!")]
          else json 500 [("success", VBool false);
                         ("message", VStr "Failed to send email")]),
       {| db := stored;
          calls := calls w ++ inserted ++
                   [EvSendMail (prop req_body "email")
                               "Your Personalized Diet Plan"] |})
    else (Thrown TypeError, {| db := stored; calls := calls w ++ inserted |})
  else
    (Returned (json 500 [("success", VBool false);
                         ("message", VStr "Failed to save diet plan")]),
     {| db := db w; calls := calls w ++ inserted |}).
Proof.
  unfold send_diet_plan, dietPlanData_of.
  cbv [bind try_catch insertOne sendMail interpolate record_call ret throw].
  destruct (insert_ok e); [|reflexivity]. cbn [db calls].
  rewrite diet_plan_template_ok.
  destruct (diet_plan_mail_ok req_body); [|reflexivity].
  cbn [db calls]. rewrite <- app_assoc. destruct (mail_ok e); reflexivity.
Qed.

Lemma book_appointment_run e w req_body :
  book_appointment e req_body w =
  let inserted := [EvInsertOne "appointments" (appointment_of req_body)] in
  if insert_ok e then
    let stored :=
      <["appointments" :=
          db w !!! "appointments" ++
          [("_id", VStr (fresh_id e)) :: appointment_of req_body]]> (db w) in
    if booking_mail_ok req_body then
      (Returned
         (if mail_ok e
          then json 200 [("success", VBool true);
                         ("message", VStr "Appointment booked successfully!")]
          else json 500 [("success", VBool false);
                         ("message", VStr "Failed to book appointment")]),
       {| db := stored;
          calls := calls w ++ inserted ++
                   [EvSendMail (prop req_body "email")
                               "Appointment Confirmation"] |})
    else (Thrown TypeError, {| db := stored; calls := calls w ++ inserted |})
  else
    (Returned (json 500 [("success", VBool false);
                         ("message", VStr "Failed to save appointment")]),
     {| db := db w; calls := calls w ++ inserted |}).
Proof.
  unfold book_appointment, appointment_of.
  cbv [bind try_catch insertOne sendMail interpolate record_call ret throw].
  destruct (insert_ok e); [|reflexivity]. cbn [db calls].
  rewrite booking_template_ok.
  destruct (booking_mail_ok req_body); [|reflexivity].
  cbn [db calls]. rewrite <- app_assoc. destruct (mail_ok e); reflexivity.
Qed.

(** The cases of a store-then-mail handler, once its run is known. *)
Ltac persists_before_mail_cases e body_ok :=
  cbv zeta;
  destruct (insert_ok e) eqn:Hinsert;
    [destruct body_ok eqn:Hbody; [destruct (mail_ok e) eqn:Hmail|]|];
  cbn [fst snd db calls];
  (split; [intros Hi; try discriminate;
           (split; [eexists; split; [reflexivity|]; split; reflexivity|]);
           (split; [|reflexivity]);
           intros to subj; erewrite calls_since_app by reflexivity;
           intros [Hev|[]]; discriminate|]);
  (split; [intros Hi; try discriminate; eexists; reflexivity|]);
  (split; [intros res Hres Hi; try discriminate;
           inversion Hres; subst res;
           (split; [eexists; erewrite calls_since_app by reflexivity;
                    reflexivity|]);
           split; intros Hm; try discriminate; split; reflexivity|]);
  (split; [intros res Hres; try discriminate;
           inversion Hres; subst res; cbn [json status body prop String.eqb
                                           Ascii.eqb Bool.eqb];
           split; (split; [intros Hs; try discriminate; auto
                          | intros Hs; try reflexivity;
                            try (destruct Hs; discriminate);
                            discriminate])|]);
  intros Hok; try discriminate; eexists; reflexivity.

(** C4: [/send-diet-plan] and [/book-appointment] store first and never
    undo it.  A failed insert gives 500, no mail is attempted and the
    database is as before; after a successful insert the collection has
    gained exactly one document, whatever follows; an answer given after
    it comes from the mail, sent to the request's email as the call that
    follows the insert, and is 500 when the mail fails; 200 with
    [success: true] is answered only when both the insert and the mail
    succeed, and it is answered then whenever the mail body can be
    built. *)
Theorem persistence_first_no_rollback :
  persists_before_mail send_diet_plan "dietPlans"
    "Your Personalized Diet Plan" diet_plan_mail_ok /\
  persists_before_mail book_appointment "appointments"
    "Appointment Confirmation" booking_mail_ok.
Proof.
  split; intros e w req_body.
  - rewrite send_diet_plan_run.
    persists_before_mail_cases e (diet_plan_mail_ok req_body).
  - rewrite book_appointment_run.
    persists_before_mail_cases e (booking_mail_ok req_body).
Qed.

(** A run of C4: the appointment is stored, the mail is attempted and
    fails, the answer is 500 and the document is there. *)
Lemma persistence_first_no_rollback_witness :
  let e := {| completion := None; find_ok := true; insert_ok := true;
              mail_ok := false; now := 0; fresh_id := "65f0c0ffee";
              salt := "" |} in
  let req_body := [("name", VStr "Ada"); ("email", VStr "ada@example.org");
                   ("phone", VStr "555-0100"); ("date", VStr "2025-01-31");
                   ("time", VStr "10:30")] in
  (exists res doc,
      fst (book_appointment e req_body empty_world) = Returned res /\
      status res = 500 /\
      calls_since empty_world (snd (book_appointment e req_body empty_world)) =
      [EvInsertOne "appointments" doc;
       EvSendMail (VStr "ada@example.org") "Appointment Confirmation"]) /\
  length (db (snd (book_appointment e req_body empty_world)) !!! "appointments") = 1.
Proof.
  intros e req_body.
  destruct (proj2 persistence_first_no_rollback e empty_world req_body)
    as [_ [Hstored [Hanswer [_ Hresponds]]]].
  destruct (Hresponds eq_refl) as [res Hres].
  destruct (Hanswer res Hres eq_refl) as [[doc Hcalls] [Hfail _]].
  destruct (Hstored eq_refl) as [doc' Hdoc'].
  split.
  - exists res, doc. split; [exact Hres|].
    split; [exact (proj1 (Hfail eq_refl)) | exact Hcalls].
  - rewrite Hdoc', lookup_total_insert_eq. reflexivity.
Defined.

(** ** Looking documents up by a string field *)

Lemma value_eqb_string v s : value_eqb v (VStr s) = true <-> v = VStr s.
Proof.
  destruct v; cbn [value_eqb]; try (split; discriminate).
  rewrite String.eqb_eq. split; congruence.
Qed.

Lemma matches_email doc s :
  matches [("email", VStr s)] doc = true <-> prop doc "email" = VStr s.
Proof.
  unfold matches. cbn [forallb fst snd]. rewrite andb_true_r.
  apply value_eqb_string.
Qed.

Lemma emails_in_app docs docs' :
  emails_in (docs ++ docs') = emails_in docs ++ emails_in docs'.
Proof.
  induction docs as [|doc docs IH]; cbn [emails_in app]; [reflexivity|].
  destruct (string_field "email" doc); cbn [app]; now rewrite IH.
Qed.

Lemma find_email_None docs s :
  List.find (matches [("email", VStr s)]) docs = None <-> ~ In s (emails_in docs).
Proof.
  induction docs as [|doc docs IH]; cbn [List.find emails_in].
  - split; [intros _ [] | reflexivity].
  - destruct (matches [("email", VStr s)] doc) eqn:Hm.
    + apply matches_email in Hm. unfold string_field. rewrite Hm.
      split; [discriminate | intros Hn; elim Hn; left; reflexivity].
    + assert (Hne : prop doc "email" <> VStr s).
      { intros Heq. apply matches_email in Heq. congruence. }
      rewrite IH. unfold string_field.
      destruct (prop doc "email") as [| | | |s'| | |]; try reflexivity.
      cbn [In]. split; [intros Hn [->|Hin]; [now elim Hne | now elim Hn] | tauto].
Qed.

Lemma find_Some_app {A} (p : A -> bool) l l' x :
  List.find p l = Some x -> List.find p (l ++ l') = Some x.
Proof.
  induction l as [|a l IH]; cbn [List.find app]; [discriminate|].
  destruct (p a); [trivial | exact IH].
Qed.

Lemma find_None_app {A} (p : A -> bool) l l' :
  List.find p l = None -> List.find p (l ++ l') = List.find p l'.
Proof.
  induction l as [|a l IH]; cbn [List.find app]; [reflexivity|].
  destruct (p a); [discriminate | exact IH].
Qed.

(** ** Claims about [/api/subscribe] *)

Lemma subscribe_run e w req_body :
  subscribe e req_body w =
  let email := prop req_body "email" in
  let found := [EvFindOne "subscriptions" [("email", email)]] in
  let newSubscription := [("email", email); ("createdAt", VDate (now e))] in
  let failed := json 500 [("success", VBool false);
                          ("message", VStr "Something went wrong. Please try again.")] in
  if find_ok e then
    match List.find (matches [("email", email)]) (subscriptions_of w) with
    | Some _ =>
        (Returned (json 400 [("success", VBool false);
                             ("message", VStr "Email already subscribed.")]),
         {| db := db w; calls := calls w ++ found |})
    | None =>
        if insert_ok e then
          (Returned (json 201 [("success", VBool true);
                               ("message", VStr "Thank you for subscribing!")]),
           {| db := <["subscriptions" :=
                        subscriptions_of w ++
                        [("_id", VStr (fresh_id e)) :: newSubscription]]> (db w);
              calls := calls w ++ found ++
                       [EvInsertOne "subscriptions" newSubscription] |})
        else
          (Returned failed,
           {| db := db w;
              calls := calls w ++ found ++
                       [EvInsertOne "subscriptions" newSubscription] |})
    end
  else (Returned failed, {| db := db w; calls := calls w ++ found |}).
Proof.
  unfold subscribe, subscriptions_of.
  cbv [bind try_catch findOne insertOne record_call ret throw].
  destruct (find_ok e); [|reflexivity]. cbn [db calls].
  destruct (List.find _ _); [reflexivity|].
  destruct (insert_ok e); cbn [db calls]; rewrite <- app_assoc; reflexivity.
Qed.

Lemma subscribe_keeps_emails_distinct e w req_body :
  NoDup (emails_in (subscriptions_of w)) ->
  NoDup (emails_in (subscriptions_of (snd (subscribe e req_body w)))).
Proof.
  intros Hnd. rewrite subscribe_run. cbv zeta.
  destruct (find_ok e); [|exact Hnd].
  destruct (List.find _ _) eqn:Hfind; [exact Hnd|].
  destruct (insert_ok e); [|exact Hnd].
  unfold subscriptions_of at 1. cbn [snd db].
  rewrite lookup_total_insert_eq, emails_in_app.
  cbn [emails_in string_field prop String.eqb Ascii.eqb Bool.eqb].
  destruct (prop req_body "email") as [| | | |s| | |]; rewrite ?app_nil_r; try exact Hnd.
  apply find_email_None in Hfind.
  apply NoDup_app. split; [exact Hnd|]. split.
  - intros x Hx [->|[]]%list_elem_of_In. apply Hfind. now apply list_elem_of_In.
  - apply NoDup_singleton.
Qed.

Lemma handle_keeps_emails_distinct `{Lowercase} `{Bcrypt} e r w :
  NoDup (emails_in (subscriptions_of w)) ->
  NoDup (emails_in (subscriptions_of (snd (handle e r w)))).
Proof.
  intros Hnd.
  destruct (handle_appends e r w "subscriptions") as [added [E N]].
  destruct r as [b|b|b|b|b|b];
    [ | now apply subscribe_keeps_emails_distinct | | | | ];
    unfold subscriptions_of; rewrite E, N, app_nil_r;
    solve [exact Hnd | cbn [written_by In]; intros [?|[]]; discriminate
          | cbn [written_by In]; tauto].
Qed.

(** C5: a duplicate subscription is rejected before anything is
    written.  For an email no subscription has yet, the first
    [/api/subscribe] answers 201 with [success: true] and appends one
    document; a second one with the same email answers 400 "Email already
    subscribed." and leaves the database as it is, so the collection has
    gained exactly one document over both calls.  And whatever requests
    are served one after the other, no two subscription documents come to
    share an email: distinctness is kept by every request, and so holds
    of everything reached from the empty database. *)
Theorem subscribe_rejects_duplicates :
  (forall e1 e2 w req_body1 req_body2 email,
      prop req_body1 "email" = VStr email ->
      prop req_body2 "email" = VStr email ->
      ~ In email (emails_in (subscriptions_of w)) ->
      find_ok e1 = true -> insert_ok e1 = true -> find_ok e2 = true ->
      let first := subscribe e1 req_body1 w in
      let second := subscribe e2 req_body2 (snd first) in
      fst first =
      Returned (json 201 [("success", VBool true);
                          ("message", VStr "Thank you for subscribing!")]) /\
      subscriptions_of (snd first) =
      subscriptions_of w ++
      [[("_id", VStr (fresh_id e1)); ("email", VStr email);
        ("createdAt", VDate (now e1))]] /\
      fst second =
      Returned (json 400 [("success", VBool false);
                          ("message", VStr "Email already subscribed.")]) /\
      db (snd second) = db (snd first) /\
      (forall coll doc, ~ In (EvInsertOne coll doc)
                             (calls_since (snd first) (snd second))) /\
      length (subscriptions_of (snd second)) = S (length (subscriptions_of w))) /\
  (forall (L : Lowercase) (B : Bcrypt) rs w,
      NoDup (emails_in (subscriptions_of w)) ->
      NoDup (emails_in (subscriptions_of (serve rs w)))) /\
  (forall (L : Lowercase) (B : Bcrypt) rs,
      NoDup (emails_in (subscriptions_of (serve rs empty_world)))).
Proof.
  assert (Hserve : forall (L : Lowercase) (B : Bcrypt) rs w,
             NoDup (emails_in (subscriptions_of w)) ->
             NoDup (emails_in (subscriptions_of (serve rs w)))).
  { intros L B rs. induction rs as [|[e r] rs IH]; intros w Hnd; cbn [serve].
    - exact Hnd.
    - apply IH. now apply handle_keeps_emails_distinct. }
  split; [|split; [exact Hserve | intros L B rs; apply Hserve; constructor]].
  intros e1 e2 w b1 b2 email Hb1 Hb2 Hfresh Hf1 Hi1 Hf2. cbv zeta.
    assert (Hfirst :
              subscribe e1 b1 w =
              (Returned (json 201 [("success", VBool true);
                                   ("message", VStr "Thank you for subscribing!")]),
               {| db := <["subscriptions" :=
                            subscriptions_of w ++
                            [[("_id", VStr (fresh_id e1)); ("email", VStr email);
                              ("createdAt", VDate (now e1))]]]> (db w);
                  calls := calls w ++
                           [EvFindOne "subscriptions" [("email", VStr email)]] ++
                           [EvInsertOne "subscriptions"
                              [("email", VStr email);
                               ("createdAt", VDate (now e1))]] |})).
    { rewrite subscribe_run. cbv zeta. rewrite Hb1, Hf1, Hi1.
      now rewrite (proj2 (find_email_None _ _) Hfresh). }
    rewrite Hfirst. cbn [fst snd].
    set (w1 := {| db := _; calls := _ |}).
    assert (Hsubs : subscriptions_of w1 =
                    subscriptions_of w ++
                    [[("_id", VStr (fresh_id e1)); ("email", VStr email);
                      ("createdAt", VDate (now e1))]]).
    { unfold subscriptions_of at 1, w1. cbn [db].
      apply lookup_total_insert_eq. }
    assert (Hsecond :
              subscribe e2 b2 w1 =
              (Returned (json 400 [("success", VBool false);
                                   ("message", VStr "Email already subscribed.")]),
               {| db := db w1;
                  calls := calls w1 ++
                           [EvFindOne "subscriptions" [("email", VStr email)]] |})).
    { rewrite subscribe_run. cbv zeta. rewrite Hb2, Hf2, Hsubs.
      rewrite find_None_app by (now apply find_email_None).
      cbn [List.find].
      rewrite (proj2 (matches_email
                        [("_id", VStr (fresh_id e1)); ("email", VStr email);
                         ("createdAt", VDate (now e1))] email) eq_refl).
      reflexivity. }
    rewrite Hsecond. cbn [fst snd db].
    split; [reflexivity|]. split; [exact Hsubs|]. split; [reflexivity|].
    split; [reflexivity|]. split.
    + intros coll doc. erewrite calls_since_app by reflexivity.
      intros [Hev|[]]. discriminate.
    + change (length (subscriptions_of w1) = S (length (subscriptions_of w))).
      rewrite Hsubs, length_app. cbn [length]. lia.
Qed.

(** ** What sign-up and sign-in do *)

Lemma get_started_run `{Bcrypt} e w req_body password :
  prop req_body "password" = VStr password ->
  get_started e req_body w =
  let userData := userData_of e req_body password in
  let failed := json 500 [("success", VBool false);
                          ("message", VStr "Failed to sign up")] in
  if insert_ok e then
    (Returned
       (if welcome_mail_ok req_body then
          if mail_ok e
          then json 200 [("success", VBool true);
                         ("message", VStr "Thank you for signing up!")]
          else json 500 [("success", VBool false);
                         ("message", VStr "Failed to send welcome email")]
        else failed),
     {| db := <["users" :=
                  users_of w ++ [("_id", VStr (fresh_id e)) :: userData]]> (db w);
        calls := calls w ++ [EvInsertOne "users" userData] ++
                 (if welcome_mail_ok req_body
                  then [EvSendMail (prop req_body "email")
                                   "Welcome to HealthConnect"]
                  else []) |})
  else
    (Returned failed,
     {| db := db w; calls := calls w ++ [EvInsertOne "users" userData] |}).
Proof.
  intros Hpw. unfold get_started, userData_of, users_of, welcome_mail_ok.
  rewrite Hpw.
  cbv [bind try_catch hash insertOne sendMail interpolate call_join
       record_call ret throw].
  destruct (insert_ok e); [|reflexivity]. cbn [db calls forallb].
  rewrite andb_true_r.
  destruct (to_string_ok (prop req_body "firstName"));
    [|cbn [andb]; now rewrite app_nil_r].
  destruct (to_string_ok (prop req_body "lastName"));
    [|cbn [andb]; now rewrite app_nil_r].
  cbn [andb db calls].
  destruct (join_ok (prop req_body "goals")); [|now rewrite app_nil_r].
  cbn [db calls]. rewrite <- app_assoc.
  destruct (mail_ok e); reflexivity.
Qed.

Lemma signin_run `{Bcrypt} e w req_body :
  signin e req_body w =
  let email := prop req_body "email" in
  let failed := json 500 [("success", VBool false);
                          ("message", VStr "Failed to sign in")] in
  (Returned
     (if find_ok e then
        match List.find (matches [("email", email)]) (users_of w) with
        | Some user =>
            match prop req_body "password", prop user "password" with
            | VStr password, VStr hashed =>
                match bcrypt_compare password hashed with
                | Some true =>
                    json 200 [("success", VBool true);
                              ("message", VStr "Sign-in successful!");
                              ("user", VObj user)]
                | Some false =>
                    json 401 [("success", VBool false);
                              ("message", VStr "Invalid email or password")]
                | None => failed
                end
            | _, _ => failed
            end
        | None => json 404 [("success", VBool false);
                            ("message", VStr "User not found")]
        end
      else failed),
   {| db := db w;
      calls := calls w ++ [EvFindOne "users" [("email", email)]] |}).
Proof.
  unfold signin, users_of.
  cbv [bind try_catch findOne compare record_call ret throw].
  destruct (find_ok e); [|reflexivity]. cbn [db calls].
  destruct (List.find _ _) as [user|]; [|reflexivity].
  destruct (prop req_body "password"); try reflexivity.
  destruct (prop user "password"); try reflexivity.
  destruct (bcrypt_compare _ _) as [[|]|]; reflexivity.
Qed.

Lemma find_email_Some docs s doc :
  List.find (matches [("email", VStr s)]) docs = Some doc ->
  In doc docs /\ prop doc "email" = VStr s.
Proof.
  intros Hfind. apply find_some in Hfind as [Hin Hm].
  split; [exact Hin | now apply matches_email].
Qed.

(** After a sign-up for an email nobody had, every later look-up of that
    email finds the document of that sign-up. *)
Lemma find_new_user `{Lowercase} `{Bcrypt} rs w w1 user email :
  ~ In email (emails_in (users_of w)) ->
  users_of w1 = users_of w ++ [user] ->
  prop user "email" = VStr email ->
  List.find (matches [("email", VStr email)]) (users_of (serve rs w1)) = Some user.
Proof.
  intros Hfresh Hw1 Hemail.
  destruct (serve_grows rs w1 "users") as [added Hgrow].
  unfold users_of in *. rewrite Hgrow, Hw1.
  apply find_Some_app. rewrite find_None_app by (now apply find_email_None).
  cbn [List.find]. now rewrite (proj2 (matches_email user email) Hemail).
Qed.

Lemma example_bcrypt_sound : BcryptSound example_bcrypt.
Proof.
  split; cbn [bcrypt_hash bcrypt_compare example_bcrypt].
  intros password _ _.
  assert (Hprefix : String.prefix "$2a$10$" ("$2a$10$" +:+ password) = true)
    by (apply prefix_append; eexists; reflexivity).
  now rewrite Hprefix, String.eqb_refl.
Qed.

(** An earlier account with the same email hides a new one: sign-in
    reads the first user document with the email, and compares with its
    password. *)
Lemma earlier_user_shadows (B : Bcrypt)
  e e' w req_body email password earlier hashed :
  prop req_body "email" = VStr email ->
  prop req_body "password" = VStr password ->
  List.find (matches [("email", VStr email)]) (users_of w) = Some earlier ->
  prop earlier "password" = VStr hashed ->
  bcrypt_compare password hashed = Some false ->
  find_ok e' = true ->
  fst (signin e' req_body (snd (get_started e req_body w))) =
  Returned (json 401 [("success", VBool false);
                      ("message", VStr "Invalid email or password")]).
Proof.
  intros Hemail Hpw Hfind Hold Hne Hfind_ok.
  rewrite signin_run. cbv zeta. cbn [fst]. rewrite Hfind_ok, Hemail, Hpw.
  destruct (get_started_appends e req_body w "users") as [added [Hgrow _]].
  unfold users_of in *. rewrite Hgrow, (find_Some_app _ _ _ _ Hfind), Hold.
  cbv iota. now rewrite Hne.
Qed.

(** ** Claims about accounts *)

(** C1, as the code has it: for a string email that no user document
    has yet, a sign-up answered with 200 has stored one user document
    whose password is the bcrypt hash of the submitted one; from then on,
    whatever requests are served in between, a sign-in with that email
    and password answers 200 with [success: true], and one with that
    email and another password answers 401 when [bcrypt.compare] finds
    that it does not match the stored hash.  A sign-in with an email no
    user document has answers 404.  Sign-in decides by [bcrypt.compare]
    of the submitted password with the stored hash: 200 when it resolves
    with [true], 401 with [false], 500 when it rejects.  (Each sign-in
    supposes that its lookup is answered.) *)
Theorem signup_then_signin :
  forall (L : Lowercase) (B : Bcrypt), BcryptSound B ->
  (forall e w req_body email password res,
      prop req_body "email" = VStr email ->
      prop req_body "password" = VStr password ->
      ~ In email (emails_in (users_of w)) ->
      fst (get_started e req_body w) = Returned res ->
      status res = 200 ->
      exists user,
        users_of (snd (get_started e req_body w)) = users_of w ++ [user] /\
        prop user "email" = VStr email /\
        prop user "password" = VStr (bcrypt_hash password 10 (salt e)) /\
        forall rs e' creds,
          find_ok e' = true ->
          prop creds "email" = VStr email ->
          (prop creds "password" = VStr password ->
           fst (signin e' creds (serve rs (snd (get_started e req_body w)))) =
           Returned (json 200 [("success", VBool true);
                               ("message", VStr "Sign-in successful!");
                               ("user", VObj user)])) /\
          (forall other,
              prop creds "password" = VStr other ->
              bcrypt_compare other (bcrypt_hash password 10 (salt e))
              = Some false ->
              fst (signin e' creds (serve rs (snd (get_started e req_body w)))) =
              Returned (json 401 [("success", VBool false);
                                  ("message", VStr "Invalid email or password")]))) /\
  (forall e w creds email,
      find_ok e = true ->
      prop creds "email" = VStr email ->
      ~ In email (emails_in (users_of w)) ->
      fst (signin e creds w) =
      Returned (json 404 [("success", VBool false);
                          ("message", VStr "User not found")])) /\
  (forall e w creds email password user hashed,
      find_ok e = true ->
      prop creds "email" = VStr email ->
      prop creds "password" = VStr password ->
      List.find (matches [("email", VStr email)]) (users_of w) = Some user ->
      prop user "password" = VStr hashed ->
      fst (signin e creds w) =
      Returned (match bcrypt_compare password hashed with
                | Some true =>
                    json 200 [("success", VBool true);
                              ("message", VStr "Sign-in successful!");
                              ("user", VObj user)]
                | Some false =>
                    json 401 [("success", VBool false);
                              ("message", VStr "Invalid email or password")]
                | None =>
                    json 500 [("success", VBool false);
                              ("message", VStr "Failed to sign in")]
                end)).
Proof.
  intros L B HB. split; [|split].
  - intros e w req_body email password res Hemail Hpw Hfresh Hres Hok.
    rewrite (get_started_run e w req_body password Hpw) in *. cbv zeta in *.
    destruct (insert_ok e).
    2:{ cbn [fst] in Hres. inversion Hres; subst res. discriminate. }
    cbn [fst snd] in *.
    set (user := ("_id", VStr (fresh_id e)) :: userData_of e req_body password).
    set (w1 := {| db := _; calls := _ |}).
    assert (Hw1 : users_of w1 = users_of w ++ [user]).
    { unfold users_of at 1, w1. cbn [db]. apply lookup_total_insert_eq. }
    assert (Huser : prop user "email" = VStr email).
    { unfold user, userData_of.
      cbn [prop String.eqb Ascii.eqb Bool.eqb]. exact Hemail. }
    exists user. split; [exact Hw1|]. split; [exact Huser|].
    split; [reflexivity|].
    intros rs e' creds Hfind_ok Hcemail.
    pose proof (find_new_user rs w w1 user email Hfresh Hw1 Huser) as Hfind.
    split.
    + intros Hcpw. rewrite signin_run. cbv zeta. cbn [fst].
      rewrite Hfind_ok, Hcemail, Hfind, Hcpw.
      change (prop user "password")
        with (VStr (bcrypt_hash password 10 (salt e))).
      cbv iota. now rewrite compare_own_hash.
    + intros other Hcpw Hne. rewrite signin_run. cbv zeta. cbn [fst].
      rewrite Hfind_ok, Hcemail, Hfind, Hcpw.
      change (prop user "password")
        with (VStr (bcrypt_hash password 10 (salt e))).
      cbv iota. now rewrite Hne.
  - intros e w creds email Hfind_ok Hemail Hfresh.
    rewrite signin_run. cbv zeta. cbn [fst]. rewrite Hfind_ok, Hemail.
    now rewrite (proj2 (find_email_None _ _) Hfresh).
  - intros e w creds email password user hashed Hfind_ok Hemail Hpw Hfind Hhash.
    rewrite signin_run. cbv zeta. cbn [fst].
    rewrite Hfind_ok, Hemail, Hfind, Hpw, Hhash.
    now destruct (bcrypt_compare password hashed) as [[|]|].
Qed.

(** C1 as stated fails: the email is not checked at sign-up, so a second
    sign-up for ada@example.org with "secret123" is answered with 200,
    and the sign-in with that email and "secret123" is answered with 401,
    because it is compared with the first account. *)
Lemma signin_after_signup_rejected :
  fst (@get_started example_bcrypt quiet_env ada_signup ada_world) =
  Returned (json 200 [("success", VBool true);
                      ("message", VStr "Thank you for signing up!")]) /\
  fst (@signin example_bcrypt quiet_env ada_credentials
         (snd (@get_started example_bcrypt quiet_env ada_signup ada_world))) =
  Returned (json 401 [("success", VBool false);
                      ("message", VStr "Invalid email or password")]).
Proof. split; vm_compute; reflexivity. Qed.

(** A run of C1 on an empty database: sign-up, a chat, then the right
    password is accepted and a wrong one refused. *)
Lemma signup_then_signin_witness :
  BcryptSound example_bcrypt /\
  fst (@signin example_bcrypt quiet_env ada_credentials
         (@serve example_lowercase example_bcrypt
            [(quiet_env, PostChat [("message", VStr "hello")])]
            (snd (@get_started example_bcrypt quiet_env ada_signup empty_world)))) =
  Returned (json 200
    [("success", VBool true); ("message", VStr "Sign-in successful!");
     ("user", VObj (("_id", VStr (fresh_id quiet_env))
                    :: @userData_of example_bcrypt quiet_env ada_signup "secret123"))]) /\
  fst (@signin example_bcrypt quiet_env
         [("email", VStr "ada@example.org"); ("password", VStr "secret124")]
         (@serve example_lowercase example_bcrypt
            [(quiet_env, PostChat [("message", VStr "hello")])]
            (snd (@get_started example_bcrypt quiet_env ada_signup empty_world)))) =
  Returned (json 401 [("success", VBool false);
                      ("message", VStr "Invalid email or password")]).
Proof.
  split; [exact example_bcrypt_sound|].
  destruct (proj1 (signup_then_signin example_lowercase example_bcrypt
                     example_bcrypt_sound)
              quiet_env empty_world ada_signup "ada@example.org" "secret123"
              (json 200 [("success", VBool true);
                         ("message", VStr "Thank you for signing up!")])
              eq_refl eq_refl)
    as [user [Husers [_ [_ Hlater]]]].
  - vm_compute. tauto.
  - vm_compute. reflexivity.
  - reflexivity.
  - assert (Huser : user = ("_id", VStr (fresh_id quiet_env))
                           :: @userData_of example_bcrypt quiet_env ada_signup
                                "secret123").
    { vm_compute in Husers. now inversion Husers. }
    rewrite <- Huser. split.
    + apply (Hlater [(quiet_env, PostChat [("message", VStr "hello")])]
               quiet_env ada_credentials eq_refl eq_refl).
      reflexivity.
    + apply (proj2 (Hlater [(quiet_env, PostChat [("message", VStr "hello")])]
                      quiet_env
                      [("email", VStr "ada@example.org");
                       ("password", VStr "secret124")] eq_refl eq_refl)
               "secret124"); reflexivity.
Defined.

(** C6: a sign-in answered with 200 carries, under [user], the stored
    user document as it was found, with its hashed [password] field;
    nothing is removed from it, and the database is untouched. *)
Theorem signin_returns_stored_user :
  forall (B : Bcrypt) e w creds res,
    fst (signin e creds w) = Returned res ->
    status res = 200 ->
    exists user hashed,
      List.find (matches [("email", prop creds "email")]) (users_of w) = Some user /\
      In user (users_of w) /\
      body res = [("success", VBool true);
                  ("message", VStr "Sign-in successful!");
                  ("user", VObj user)] /\
      prop user "password" = VStr hashed /\
      db (snd (signin e creds w)) = db w.
Proof.
  intros B e w creds res Hres Hok.
  rewrite signin_run in *. cbv zeta in *. cbn [fst snd db] in *.
  inversion Hres as [Hr]. clear Hres.
  destruct (find_ok e); [|subst res; discriminate].
  destruct (List.find _ _) as [user|] eqn:Hfind; [|subst res; discriminate].
  destruct (prop creds "password"); try (subst res; discriminate).
  destruct (prop user "password") as [| | | |hashed| | |] eqn:Hhashed;
    try (subst res; discriminate).
  destruct (bcrypt_compare _ _) as [[|]|]; try (subst res; discriminate).
  exists user, hashed. subst res.
  split; [reflexivity|]. split; [|auto].
  now apply find_some in Hfind.
Qed.

(** A run of C6: signing in to the first account returns it whole. *)
Lemma signin_returns_stored_user_witness :
  let creds := [("email", VStr "ada@example.org");
                ("password", VStr "first-secret")] in
  let res := json 200 [("success", VBool true);
                       ("message", VStr "Sign-in successful!");
                       ("user", VObj ada_first_account)] in
  fst (@signin example_bcrypt quiet_env creds ada_world) = Returned res /\
  status res = 200 /\
  exists user hashed,
    List.find (matches [("email", prop creds "email")]) (users_of ada_world)
    = Some user /\
    In user (users_of ada_world) /\
    body res = [("success", VBool true);
                ("message", VStr "Sign-in successful!");
                ("user", VObj user)] /\
    prop user "password" = VStr hashed /\
    db (snd (@signin example_bcrypt quiet_env creds ada_world)) = db ada_world.
Proof.
  intros creds res.
  split; [vm_compute; reflexivity|]. split; [reflexivity|].
  apply (signin_returns_stored_user example_bcrypt quiet_env ada_world creds res).
  - vm_compute. reflexivity.
  - reflexivity.
Defined.

(** A run of C5: ada@example.org subscribes twice to an empty list. *)
Lemma subscribe_rejects_duplicates_witness :
  let req_body := [("email", VStr "ada@example.org")] in
  let first := subscribe quiet_env req_body empty_world in
  let second := subscribe quiet_env req_body (snd first) in
  fst second =
  Returned (json 400 [("success", VBool false);
                      ("message", VStr "Email already subscribed.")]) /\
  length (subscriptions_of (snd second)) = 1.
Proof.
  intros req_body first second.
  destruct (proj1 subscribe_rejects_duplicates quiet_env quiet_env empty_world
              req_body req_body "ada@example.org" eq_refl eq_refl)
    as [_ [_ [Hsecond [_ [_ Hlen]]]]].
  - vm_compute. tauto.
  - reflexivity.
  - reflexivity.
  - reflexivity.
  - split; [exact Hsecond | exact Hlen].
Defined.

(** ** Errors that leave a handler *)

Lemma get_started_throws `{Bcrypt} e w req_body :
  is_string (prop req_body "password") = false ->
  get_started e req_body w = (Thrown IllegalArguments, w).
Proof.
  intros Hpw. unfold get_started.
  destruct (prop req_body "password"); try reflexivity. discriminate.
Qed.

(** C7: errors do leave handlers.  A request body without a string
    [message] makes [/chat] throw at [req.body.message.toLowerCase()],
    before any [try]: no response is produced and nothing is called.
    [/get-started] likewise lets the rejection of [bcrypt.hash] escape
    when [password] is not a string, since the hash is computed before
    its [try] block.  [/send-diet-plan] and [/book-appointment] build
    their mail body outside of any [try]: for a field that cannot be
    converted to a string they throw after the document has been stored,
    without a mail and without a response. *)
Theorem errors_leaving_handlers :
  (forall (L : Lowercase) (B : Bcrypt) e r w err,
      escapes e r = Some err ->
      fst (handle e r w) = Thrown err /\
      (forall to subject,
          ~ In (EvSendMail to subject) (calls_since w (snd (handle e r w)))) /\
      match r with
      | PostSendDietPlan _ | PostBookAppointment _ =>
          exists coll doc,
            written_by r = [coll] /\
            db (snd (handle e r w)) = <[coll := db w !!! coll ++ [doc]]> (db w)
      | _ => snd (handle e r w) = w
      end) /\
  (forall e, escapes e (PostChat []) = Some TypeError) /\
  (forall e, escapes e (PostChat [("message", VNum 42)]) = Some TypeError) /\
  (forall e,
      escapes e (PostGetStarted
                   [("firstName", VStr "Ada"); ("lastName", VStr "Lovelace");
                    ("email", VStr "ada@example.org");
                    ("phone", VStr "555-0100");
                    ("goals", VArr [VStr "strength"])])
      = Some IllegalArguments) /\
  escapes quiet_env
    (PostBookAppointment
       [("name", VStr "Ada"); ("email", VStr "ada@example.org");
        ("phone", VStr "555-0100");
        ("date", VObj [("toString", VNull)]); ("time", VStr "10:30")])
  = Some TypeError.
Proof.
  split; [|repeat split].
  intros L B e r w err Hesc.
  destruct r as [b|b|b|b|b|b]; cbn [escapes handle written_by] in *;
    try discriminate.
  - destruct (is_string (prop b "message")) eqn:Hmsg; [discriminate|].
    inversion Hesc; subst err.
    rewrite chat_throws.
    + cbn [fst snd]. split; [reflexivity|]. split; [|reflexivity].
      intros to subject. unfold calls_since. rewrite drop_all. intros [].
    + intros m Hm. rewrite Hm in Hmsg. discriminate.
  - destruct (insert_ok e) eqn:Hinsert; [|discriminate].
    destruct (diet_plan_mail_ok b) eqn:Hbody; [discriminate|].
    inversion Hesc; subst err.
    rewrite send_diet_plan_run. cbv zeta. rewrite Hinsert, Hbody.
    cbn [fst snd db]. split; [reflexivity|]. split.
    + intros to subject. erewrite calls_since_app by reflexivity.
      intros [Hev|[]]. discriminate.
    + eexists _, _. split; reflexivity.
  - destruct (insert_ok e) eqn:Hinsert; [|discriminate].
    destruct (booking_mail_ok b) eqn:Hbody; [discriminate|].
    inversion Hesc; subst err.
    rewrite book_appointment_run. cbv zeta. rewrite Hinsert, Hbody.
    cbn [fst snd db]. split; [reflexivity|]. split.
    + intros to subject. erewrite calls_since_app by reflexivity.
      intros [Hev|[]]. discriminate.
    + eexists _, _. split; reflexivity.
  - destruct (is_string (prop b "password")) eqn:Hpw; [discriminate|].
    inversion Hesc; subst err.
    rewrite (get_started_throws e w b Hpw).
    cbn [fst snd]. split; [reflexivity|]. split; [|reflexivity].
    intros to subject. unfold calls_since. rewrite drop_all. intros [].
Qed.

(** A run of C7: an appointment whose [date] is an object with its own
    [toString] is stored, and then the handler throws. *)
Lemma errors_leaving_handlers_witness :
  let req_body := [("name", VStr "Ada"); ("email", VStr "ada@example.org");
                   ("phone", VStr "555-0100");
                   ("date", VObj [("toString", VNull)]);
                   ("time", VStr "10:30")] in
  fst (book_appointment quiet_env req_body empty_world) = Thrown TypeError /\
  length (db (snd (book_appointment quiet_env req_body empty_world))
            !!! "appointments") = 1.
Proof.
  intros req_body.
  destruct (proj1 errors_leaving_handlers example_lowercase example_bcrypt
              quiet_env (PostBookAppointment req_body) empty_world TypeError
              eq_refl)
    as [Hthrown [_ [coll [doc [Hcoll Hdb]]]]].
  split; [exact Hthrown|].
  cbn [handle] in Hdb. rewrite Hdb.
  cbn [written_by] in Hcoll. inversion Hcoll; subst coll.
  rewrite lookup_total_insert_eq. reflexivity.
Defined.

(** * Further properties of the handlers *)

(** ** What a request does to the database *)

Lemma handle_other_collection `{Lowercase} `{Bcrypt} e r w coll :
  ~ In coll (written_by r) ->
  db (snd (handle e r w)) !!! coll = db w !!! coll.
Proof.
  intros Hn. destruct (handle_appends e r w coll) as [added [E N]].
  now rewrite E, (N Hn), app_nil_r.
Qed.

Lemma send_diet_plan_db_eq e w req_body :
  db (snd (send_diet_plan e req_body w)) =
  if insert_ok e
  then <["dietPlans" :=
           db w !!! "dietPlans" ++
           [("_id", VStr (fresh_id e)) :: dietPlanData_of req_body]]> (db w)
  else db w.
Proof.
  rewrite send_diet_plan_run. cbv zeta.
  destruct (insert_ok e); [|reflexivity].
  destruct (diet_plan_mail_ok req_body); reflexivity.
Qed.

Lemma book_appointment_db_eq e w req_body :
  db (snd (book_appointment e req_body w)) =
  if insert_ok e
  then <["appointments" :=
           db w !!! "appointments" ++
           [("_id", VStr (fresh_id e)) :: appointment_of req_body]]> (db w)
  else db w.
Proof.
  rewrite book_appointment_run. cbv zeta.
  destruct (insert_ok e); [|reflexivity].
  destruct (booking_mail_ok req_body); reflexivity.
Qed.

(** X1: a request leaves the database as it is or appends exactly one
    document to the one collection of its route; so, whatever is served,
    a collection keeps the documents it had, in front and in order, and
    a collection none of the served routes writes to is unchanged. *)
Theorem requests_only_append :
  forall (L : Lowercase) (B : Bcrypt),
    (forall e r w,
        db (snd (handle e r w)) = db w \/
        exists coll doc,
          written_by r = [coll] /\
          db (snd (handle e r w)) = <[coll := db w !!! coll ++ [doc]]> (db w)) /\
    (forall rs w coll,
        exists added, db (serve rs w) !!! coll = db w !!! coll ++ added) /\
    (forall rs w coll,
        (forall e r, In (e, r) rs -> ~ In coll (written_by r)) ->
        db (serve rs w) !!! coll = db w !!! coll).
Proof.
  intros L B. split; [|split].
  - intros e r w. destruct r as [b|b|b|b|b|b]; cbn [handle written_by].
    + destruct (prop b "message") as [| | | |message| | |] eqn:Hmsg;
        try (left; rewrite chat_throws;
             [reflexivity | intros m; rewrite Hmsg; discriminate]).
      rewrite (chat_run e w b message Hmsg). cbn [snd db].
      destruct (insert_ok e); [right | left; reflexivity].
      eexists _, _. split; reflexivity.
    + rewrite subscribe_run. cbv zeta.
      destruct (find_ok e); [|left; reflexivity].
      destruct (List.find _ _); [left; reflexivity|].
      destruct (insert_ok e); [right | left; reflexivity].
      eexists _, _. split; reflexivity.
    + rewrite send_diet_plan_db_eq.
      destruct (insert_ok e); [right | left; reflexivity].
      eexists _, _. split; reflexivity.
    + rewrite book_appointment_db_eq.
      destruct (insert_ok e); [right | left; reflexivity].
      eexists _, _. split; reflexivity.
    + destruct (is_string (prop b "password")) eqn:Hpw.
      * destruct (prop b "password") as [| | | |password| | |] eqn:Hp;
          try discriminate.
        rewrite (get_started_run e w b password Hp). cbv zeta.
        destruct (insert_ok e); [right | left; reflexivity].
        eexists _, _. split; reflexivity.
      * left. now rewrite get_started_throws.
    + left. rewrite signin_run. reflexivity.
  - intros rs w coll. apply serve_grows.
  - intros rs. induction rs as [|[e r] rs IH]; intros w coll Hnone; cbn [serve].
    + reflexivity.
    + rewrite IH.
      * apply handle_other_collection. apply (Hnone e r). left. reflexivity.
      * intros e' r' Hin. apply (Hnone e' r'). right. exact Hin.
Qed.

(** A run of X1: a chat and a sign-in leave [users] as it was. *)
Lemma requests_only_append_witness :
  db (@serve example_lowercase example_bcrypt
        [(quiet_env, PostChat [("message", VStr "hello")]);
         (quiet_env, PostSignin ada_credentials)] ada_world) !!! "users" =
  db ada_world !!! "users".
Proof.
  apply (proj2 (proj2 (requests_only_append example_lowercase example_bcrypt))).
  intros e r [Heq|[Heq|[]]]; inversion Heq; subst; cbn [written_by In];
    [intros [Hc|[]]; discriminate | tauto].
Defined.

(** ** Sign-up *)

(** X2: [/get-started] with a string password stores the user first and
    never undoes it.  The answer is 200 exactly when the insert succeeds,
    the welcome mail can be built (first and last name convert to
    strings, [goals] is an array whose elements do) and the mail succeeds,
    and 500 otherwise; a successful insert leaves the user document in
    [users] whatever the answer; a failed insert leaves the database as
    it was; the mail is attempted exactly when the insert succeeded and
    the welcome mail can be built.  When it cannot be built the user is
    stored and the answer is "Failed to sign up". *)
Theorem get_started_stores_before_mail :
  forall (B : Bcrypt) e w req_body password,
    prop req_body "password" = VStr password ->
    exists res,
      fst (get_started e req_body w) = Returned res /\
      (status res = 200 <->
       insert_ok e = true /\ welcome_mail_ok req_body = true /\
       mail_ok e = true) /\
      (status res <> 200 -> status res = 500) /\
      (insert_ok e = true ->
       users_of (snd (get_started e req_body w)) =
       users_of w ++
       [("_id", VStr (fresh_id e)) :: userData_of e req_body password]) /\
      (insert_ok e = false -> db (snd (get_started e req_body w)) = db w) /\
      ((exists to subject,
           In (EvSendMail to subject)
              (calls_since w (snd (get_started e req_body w)))) <->
       insert_ok e = true /\ welcome_mail_ok req_body = true) /\
      (insert_ok e = true -> welcome_mail_ok req_body = false ->
       res = json 500 [("success", VBool false);
                       ("message", VStr "Failed to sign up")]).
Proof.
  intros B e w req_body password Hpw.
  rewrite (get_started_run e w req_body password Hpw). cbv zeta.
  destruct (insert_ok e) eqn:Hinsert;
    [destruct (welcome_mail_ok req_body) eqn:Hgoals;
     [destruct (mail_ok e) eqn:Hmail|]|];
    cbn [fst snd db calls]; eexists; (split; [reflexivity|]);
    cbn [json status]; erewrite calls_since_app by reflexivity.
  - split; [tauto|]. split; [intros Hs; now elim Hs|].
    split; [intros _; apply lookup_total_insert_eq|].
    split; [discriminate|]. split; [|discriminate].
    split; [tauto|]. intros _. eexists _, _. right. left. reflexivity.
  - split; [split; [discriminate | intros [_ [_ Hm]]; discriminate]|].
    split; [reflexivity|].
    split; [intros _; apply lookup_total_insert_eq|].
    split; [discriminate|]. split; [|discriminate].
    split; [tauto|]. intros _. eexists _, _. right. left. reflexivity.
  - split; [split; [discriminate | intros [_ [Hg _]]; discriminate]|].
    split; [reflexivity|].
    split; [intros _; apply lookup_total_insert_eq|].
    split; [discriminate|]. split; [|reflexivity].
    split; [|intros [_ Hg]; discriminate].
    intros [to [subject [Hin|[]]]]. discriminate.
  - split; [split; [discriminate | intros [Hi _]; discriminate]|].
    split; [reflexivity|]. split; [discriminate|].
    split; [reflexivity|]. split; [|discriminate].
    split; [|intros [Hi _]; discriminate].
    intros [to [subject [Hin|[]]]]. discriminate.
Qed.

(** A run of X2: a sign-up whose first name is an object with its own
    [toString] is answered "Failed to sign up", and the user is in the
    database. *)
Lemma get_started_stores_before_mail_witness :
  let req_body := [("firstName", VObj [("toString", VNum 1)]);
                   ("lastName", VStr "Lovelace");
                   ("email", VStr "ada@example.org");
                   ("phone", VStr "555-0100");
                   ("password", VStr "secret123");
                   ("goals", VArr [VStr "strength"])] in
  fst (@get_started example_bcrypt quiet_env req_body empty_world) =
  Returned (json 500 [("success", VBool false);
                      ("message", VStr "Failed to sign up")]) /\
  length (users_of (snd (@get_started example_bcrypt quiet_env req_body
                           empty_world))) = 1.
Proof.
  intros req_body.
  destruct (get_started_stores_before_mail example_bcrypt quiet_env empty_world
              req_body "secret123" eq_refl)
    as [res [Hres [_ [_ [Husers [_ [_ Hgoals]]]]]]].
  split.
  - rewrite Hres, (Hgoals eq_refl eq_refl). reflexivity.
  - rewrite (Husers eq_refl). reflexivity.
Defined.

(** ** Sign-in *)

(** X3: the first account of an email wins for good.  Once a user
    document with a string email is found, sign-in with that email gives
    the same answer after any requests served in between: later sign-ups
    with the email never change it. *)
Theorem signin_first_account_wins :
  forall (L : Lowercase) (B : Bcrypt) rs e w creds email user,
    prop creds "email" = VStr email ->
    List.find (matches [("email", VStr email)]) (users_of w) = Some user ->
    fst (signin e creds (serve rs w)) = fst (signin e creds w).
Proof.
  intros L B rs e w creds email user Hemail Hfind.
  rewrite !signin_run. cbv zeta. cbn [fst]. rewrite Hemail.
  destruct (serve_grows rs w "users") as [added Hgrow].
  unfold users_of in *.
  now rewrite Hgrow, (find_Some_app _ _ added _ Hfind), Hfind.
Qed.

(** A run of X3: after a second sign-up for ada@example.org the first
    password still signs in. *)
Lemma signin_first_account_wins_witness :
  let creds := [("email", VStr "ada@example.org");
                ("password", VStr "first-secret")] in
  fst (@signin example_bcrypt quiet_env creds
         (@serve example_lowercase example_bcrypt
            [(quiet_env, PostGetStarted ada_signup)] ada_world)) =
  Returned (json 200 [("success", VBool true);
                      ("message", VStr "Sign-in successful!");
                      ("user", VObj ada_first_account)]).
Proof.
  intros creds.
  rewrite (signin_first_account_wins example_lowercase example_bcrypt
             [(quiet_env, PostGetStarted ada_signup)] quiet_env ada_world creds
             "ada@example.org" ada_first_account eq_refl).
  - vm_compute. reflexivity.
  - vm_compute. reflexivity.
Defined.

(** X4: what sign-in answers, for every body.  It always answers, never
    changes the database and makes one call, the lookup by email.  The
    answer is 404 exactly when the lookup succeeds and finds nothing; it
    is 500 exactly when the lookup fails, or a user is found and the
    submitted or the stored password is not a string (a missing password
    gives 500, not 401) or [bcrypt.compare] rejects the two strings;
    otherwise it is 200 or 401.  The user document is in the body exactly
    when the answer is 200. *)
Theorem signin_answers :
  forall (B : Bcrypt) e w creds,
    exists res,
      fst (signin e creds w) = Returned res /\
      db (snd (signin e creds w)) = db w /\
      calls_since w (snd (signin e creds w)) =
      [EvFindOne "users" [("email", prop creds "email")]] /\
      (status res = 404 <->
       find_ok e = true /\
       List.find (matches [("email", prop creds "email")]) (users_of w) = None) /\
      (status res = 500 <->
       find_ok e = false \/
       exists user,
         List.find (matches [("email", prop creds "email")]) (users_of w)
         = Some user /\
         (is_string (prop creds "password") = false \/
          is_string (prop user "password") = false \/
          exists password hashed,
            prop creds "password" = VStr password /\
            prop user "password" = VStr hashed /\
            bcrypt_compare password hashed = None)) /\
      (status res = 200 \/ status res = 401 \/
       status res = 404 \/ status res = 500) /\
      (prop (body res) "user" <> VUndefined <-> status res = 200).
Proof.
  intros B e w creds. rewrite signin_run. cbv zeta. cbn [fst snd db].
  eexists. split; [reflexivity|]. split; [reflexivity|].
  split; [now erewrite calls_since_app by reflexivity|].
  destruct (find_ok e).
  2:{ cbn. intuition (try discriminate; auto). }
  destruct (List.find _ _) as [user|].
  2:{ cbn. intuition (try discriminate; auto).
      match goal with H : exists _, _ |- _ => destruct H as [u [Hu _]] end.
      discriminate. }
  destruct (prop creds "password") as [| | | |password| | |] eqn:Hsubmitted;
    try (cbn; split; [split; [discriminate | intros [_ Hn]; discriminate]|];
         split; [split; [intros _; right; exists user; auto | reflexivity]|];
         split; [auto|]; split; [intros Hu; now elim Hu | discriminate]).
  destruct (prop user "password") as [| | | |hashed| | |] eqn:Hstored;
    try (cbn; split; [split; [discriminate | intros [_ Hn]; discriminate]|];
         split; [split; [intros _; right; exists user; rewrite Hstored; auto
                        | reflexivity]|];
         split; [auto|]; split; [intros Hu; now elim Hu | discriminate]).
  assert (H500 :
            (true = false \/
             exists user0 : document,
               Some user = Some user0 /\
               (is_string (VStr password) = false \/
                is_string (prop user0 "password") = false \/
                exists password0 hashed0,
                  VStr password = VStr password0 /\
                  prop user0 "password" = VStr hashed0 /\
                  bcrypt_compare password0 hashed0 = None)) <->
            bcrypt_compare password hashed = None).
  { split.
    - intros [Hf|[u [Hu [Hs|[Hs|[p [h [Hp [Hh Hc]]]]]]]]]; try discriminate.
      + inversion Hu; subst u. rewrite Hstored in Hs. discriminate.
      + inversion Hu; subst u. rewrite Hstored in Hh.
        inversion Hp; inversion Hh; subst. exact Hc.
    - intros Hc. right. exists user. split; [reflexivity|].
      right. right. exists password, hashed. auto. }
  destruct (bcrypt_compare password hashed) as [[|]|]; cbn.
  - split; [split; [discriminate | intros [_ Hn]; discriminate]|].
    split; [split; [discriminate | intros Hc; apply H500 in Hc; discriminate]|].
    split; [auto|]. split; [reflexivity | discriminate].
  - split; [split; [discriminate | intros [_ Hn]; discriminate]|].
    split; [split; [discriminate | intros Hc; apply H500 in Hc; discriminate]|].
    split; [auto|]. split; [intros Hu; now elim Hu | discriminate].
  - split; [split; [discriminate | intros [_ Hn]; discriminate]|].
    split; [split; [intros _; now apply H500 | reflexivity]|].
    split; [auto|]. split; [intros Hu; now elim Hu | discriminate].
Qed.

(** A run of X4: signing in to an existing account without a password
    is answered with 500, and so is signing in to an account whose stored
    password the comparison rejects. *)
Lemma signin_answers_witness :
  (exists res,
      fst (@signin example_bcrypt quiet_env [("email", VStr "ada@example.org")]
             ada_world) = Returned res /\
      status res = 500) /\
  (exists res,
      fst (@signin example_bcrypt quiet_env
             [("email", VStr "bob@example.org"); ("password", VStr "secret123")]
             unhashed_world) = Returned res /\
      status res = 500).
Proof.
  split.
  - destruct (signin_answers example_bcrypt quiet_env ada_world
                [("email", VStr "ada@example.org")])
      as [res [Hres [_ [_ [_ [H500 _]]]]]].
    exists res. split; [exact Hres|].
    apply H500. right. exists ada_first_account.
    split; [vm_compute; reflexivity | left; reflexivity].
  - destruct (signin_answers example_bcrypt quiet_env unhashed_world
                [("email", VStr "bob@example.org");
                 ("password", VStr "secret123")])
      as [res [Hres [_ [_ [_ [H500 _]]]]]].
    exists res. split; [exact Hres|].
    apply H500. right. eexists. split; [vm_compute; reflexivity|].
    right. right. eexists _, _. repeat split; reflexivity.
Defined.

(** ** Subscriptions *)

(** X5: what [/api/subscribe] answers, for every body.  It always
    answers.  201 exactly when the lookup succeeds, finds nothing and the
    insert succeeds, and then the collection has gained the document
    (email, createdAt); 400 exactly when the lookup succeeds and finds a
    document; 500 exactly when the lookup fails or the insert fails.
    Unless the answer is 201 the database is unchanged, and the insert is
    attempted exactly when the lookup succeeded and found nothing. *)
Theorem subscribe_answers :
  forall e w req_body,
    exists res,
      fst (subscribe e req_body w) = Returned res /\
      (status res = 201 <->
       find_ok e = true /\
       List.find (matches [("email", prop req_body "email")])
                 (subscriptions_of w) = None /\
       insert_ok e = true) /\
      (status res = 400 <->
       find_ok e = true /\
       List.find (matches [("email", prop req_body "email")])
                 (subscriptions_of w) <> None) /\
      (status res = 500 <->
       find_ok e = false \/
       (List.find (matches [("email", prop req_body "email")])
                  (subscriptions_of w) = None /\ insert_ok e = false)) /\
      (status res = 201 ->
       subscriptions_of (snd (subscribe e req_body w)) =
       subscriptions_of w ++
       [[("_id", VStr (fresh_id e)); ("email", prop req_body "email");
         ("createdAt", VDate (now e))]]) /\
      (status res <> 201 -> db (snd (subscribe e req_body w)) = db w) /\
      ((exists coll doc,
           In (EvInsertOne coll doc)
              (calls_since w (snd (subscribe e req_body w)))) <->
       find_ok e = true /\
       List.find (matches [("email", prop req_body "email")])
                 (subscriptions_of w) = None).
Proof.
  intros e w req_body. rewrite subscribe_run. cbv zeta.
  destruct (find_ok e).
  2:{ eexists. split; [reflexivity|]. cbn [fst snd db calls json status].
      erewrite calls_since_app by reflexivity.
      split; [split; [discriminate | intros [Hf _]; discriminate]|].
      split; [split; [discriminate | intros [Hf _]; discriminate]|].
      split; [split; [auto | reflexivity]|].
      split; [discriminate|]. split; [reflexivity|].
      split; [|intros [Hf _]; discriminate].
      intros [coll [doc [Hin|[]]]]. discriminate. }
  destruct (List.find _ _) as [found|] eqn:Hfind.
  { eexists. split; [reflexivity|]. cbn [fst snd db calls json status].
    erewrite calls_since_app by reflexivity.
    split; [split; [discriminate | intros [_ [Hn _]]; discriminate]|].
    split; [split; [intros _; split; [reflexivity | discriminate] | reflexivity]|].
    split; [split; [discriminate | intros [Hf|[Hn _]]; discriminate]|].
    split; [discriminate|]. split; [reflexivity|].
    split; [|intros [_ Hn]; discriminate].
    intros [coll [doc [Hin|[]]]]. discriminate. }
  destruct (insert_ok e).
  - eexists. split; [reflexivity|]. cbn [fst snd db calls json status].
    erewrite calls_since_app by reflexivity.
    split; [tauto|].
    split; [split; [discriminate | intros [_ Hn]; now elim Hn]|].
    split; [split; [discriminate | intros [Hf|[_ Hi]]; discriminate]|].
    split; [intros _; apply lookup_total_insert_eq|].
    split; [intros Hs; now elim Hs|].
    split; [tauto|]. intros _. eexists _, _. right. left. reflexivity.
  - eexists. split; [reflexivity|]. cbn [fst snd db calls json status].
    erewrite calls_since_app by reflexivity.
    split; [split; [discriminate | intros [_ [_ Hi]]; discriminate]|].
    split; [split; [discriminate | intros [_ Hn]; now elim Hn]|].
    split; [split; [auto | reflexivity]|].
    split; [discriminate|]. split; [reflexivity|].
    split; [tauto|]. intros _. eexists _, _. right. left. reflexivity.
Qed.

(** A run of X5: with the lookup failing nothing is inserted and the
    answer is 500. *)
Lemma subscribe_answers_witness :
  let e := {| completion := None; find_ok := false; insert_ok := true;
              mail_ok := true; now := 0; fresh_id := "65f0c0ffee";
              salt := "" |} in
  exists res,
    fst (subscribe e [("email", VStr "ada@example.org")] empty_world)
    = Returned res /\
    status res = 500 /\
    db (snd (subscribe e [("email", VStr "ada@example.org")] empty_world))
    = db empty_world.
Proof.
  intros e.
  destruct (subscribe_answers e empty_world [("email", VStr "ada@example.org")])
    as [res [Hres [_ [_ [H500 [_ [Hdb _]]]]]]].
  assert (Hs : status res = 500) by (apply H500; left; reflexivity).
  exists res. split; [exact Hres|]. split; [exact Hs|].
  apply Hdb. rewrite Hs. discriminate.
Defined.

(** X6: once subscribed, always refused.  After a subscribe for a string
    email that was answered 201 or 400, every later subscribe with that
    email whose lookup succeeds is answered 400 "Email already
    subscribed." and writes nothing, whatever requests were served in
    between. *)
Theorem subscribed_email_stays_refused :
  forall (L : Lowercase) (B : Bcrypt) rs e1 e2 w req_body1 req_body2 email res1,
    prop req_body1 "email" = VStr email ->
    prop req_body2 "email" = VStr email ->
    fst (subscribe e1 req_body1 w) = Returned res1 ->
    status res1 <> 500 ->
    find_ok e2 = true ->
    fst (subscribe e2 req_body2 (serve rs (snd (subscribe e1 req_body1 w)))) =
    Returned (json 400 [("success", VBool false);
                        ("message", VStr "Email already subscribed.")]) /\
    db (snd (subscribe e2 req_body2 (serve rs (snd (subscribe e1 req_body1 w))))) =
    db (serve rs (snd (subscribe e1 req_body1 w))).
Proof.
  intros L B rs e1 e2 w b1 b2 email res1 Hb1 Hb2 Hres1 Hs1 Hf2.
  assert (Hthere : exists found,
             List.find (matches [("email", VStr email)])
                       (subscriptions_of (snd (subscribe e1 b1 w))) = Some found).
  { rewrite subscribe_run in *. cbv zeta in *. rewrite Hb1 in *.
    destruct (find_ok e1).
    2:{ inversion Hres1; subst res1. now elim Hs1. }
    destruct (List.find _ _) as [found|] eqn:Hfind.
    { exists found. exact Hfind. }
    destruct (insert_ok e1).
    2:{ inversion Hres1; subst res1. now elim Hs1. }
    unfold subscriptions_of at 1. cbn [snd db].
    rewrite lookup_total_insert_eq, (find_None_app _ _ _ Hfind).
    cbn [List.find].
    rewrite (proj2 (matches_email
                      [("_id", VStr (fresh_id e1)); ("email", VStr email);
                       ("createdAt", VDate (now e1))] email) eq_refl).
    eexists. reflexivity. }
  destruct Hthere as [found Hfound].
  destruct (serve_grows rs (snd (subscribe e1 b1 w)) "subscriptions")
    as [added Hgrow].
  rewrite (subscribe_run e2). cbv zeta. rewrite Hb2, Hf2.
  unfold subscriptions_of in *.
  rewrite Hgrow, (find_Some_app _ _ added _ Hfound).
  split; reflexivity.
Qed.

(** A run of X6: ada@example.org subscribes, signs up and chats; the
    second subscribe is refused. *)
Lemma subscribed_email_stays_refused_witness :
  let req_body := [("email", VStr "ada@example.org")] in
  let between := [(quiet_env, PostGetStarted ada_signup);
                  (quiet_env, PostChat [("message", VStr "hello")])] in
  fst (subscribe quiet_env req_body
         (@serve example_lowercase example_bcrypt between
            (snd (subscribe quiet_env req_body empty_world)))) =
  Returned (json 400 [("success", VBool false);
                      ("message", VStr "Email already subscribed.")]).
Proof.
  intros req_body between.
  apply (subscribed_email_stays_refused example_lowercase example_bcrypt
           between quiet_env
           quiet_env empty_world req_body req_body "ada@example.org"
           (json 201 [("success", VBool true);
                      ("message", VStr "Thank you for subscribing!")])).
  - reflexivity.
  - reflexivity.
  - vm_compute. reflexivity.
  - discriminate.
  - reflexivity.
Defined.

(** ** Chat *)

Lemma apology_not_default : apology <> responses_default.
Proof. vm_compute. discriminate. Qed.

(** X7: where a chat answer comes from.  Either a keyword of the table
    occurs in the lowercased message, the answer is a canned response of
    the table and the only call is the insert into the history; or no
    keyword occurs, the completion API is called once, with the
    lowercased message, before the insert, and the answer is the text it
    returned, or the apology when it failed.  The [default] text of the
    table is never answered unless the completion API returns it. *)
Theorem chat_answer_sources :
  forall (L : Lowercase) e w req_body message,
    prop req_body "message" = VStr message ->
    exists reply doc,
      fst (chat e req_body w) =
      Returned (json 200 [("message", VStr reply)]) /\
      (((exists key,
            In (key, reply) keyword_table /\
            occurs_in key (toLowerCase message)) /\
        calls_since w (snd (chat e req_body w)) =
        [EvInsertOne "chatHistory" doc]) \/
       ((forall key, In key keywords -> ~ occurs_in key (toLowerCase message)) /\
        calls_since w (snd (chat e req_body w)) =
        [EvCompletion (toLowerCase message); EvInsertOne "chatHistory" doc] /\
        reply = match completion e with
                | Some content => content
                | None => apology
                end)) /\
      (reply = responses_default -> completion e = Some responses_default).
Proof.
  intros L e w req_body message Hmsg.
  exists (chat_reply e (toLowerCase message)),
         (chat_conversation e (toLowerCase message)).
  rewrite (chat_run e w req_body message Hmsg). cbn [fst snd].
  split; [reflexivity|].
  erewrite calls_since_app by reflexivity.
  unfold chat_reply, chat_completion_call.
  destruct (String.eqb (scan (toLowerCase message) responses responses_default)
                       responses_default) eqn:Hscan.
  - pose proof (proj1 (scan_default_iff _) Hscan) as Hnone. split.
    + right. split; [now apply keywords_miss_iff|]. split; reflexivity.
    + destruct (completion e) as [content|]; [congruence|].
      intros Heq. now elim apology_not_default.
  - assert (Hfound : exists kr, In kr keyword_table /\
                                includes (toLowerCase message) (fst kr) = true).
    { destruct (existsb (fun kr => includes (toLowerCase message) (fst kr))
                        keyword_table) eqn:Hex.
      - apply existsb_exists in Hex. exact Hex.
      - assert (Hmiss : forall kr, In kr keyword_table ->
                                   includes (toLowerCase message) (fst kr) = false).
        { intros kr Hin. destruct (includes _ (fst kr)) eqn:Hinc; [|reflexivity].
          assert (Ht : existsb (fun kr => includes (toLowerCase message) (fst kr))
                               keyword_table = true)
            by (apply existsb_exists; exists kr; auto).
          congruence. }
        pose proof (proj2 (scan_default_iff _) Hmiss). congruence. }
    rewrite scan_responses in *.
    assert (Hhit : exists key,
               In (key, scan (toLowerCase message) keyword_table responses_default)
                  keyword_table /\
               includes (toLowerCase message) key = true).
    { clear Hscan. revert Hfound. generalize responses_default as d.
      generalize keyword_table as t.
      induction t as [|[k r] t IH]; intros d [kr [Hin Hinc]]; cbn [scan].
      - destruct Hin.
      - destruct (includes (toLowerCase message) k) eqn:Hk.
        + exists k. split; [left; reflexivity | exact Hk].
        + destruct Hin as [<-|Hin]; [cbn [fst] in Hinc; congruence|].
          destruct (IH d) as [key [Hkey Hocc]]; [exists kr; auto|].
          exists key. split; [right; exact Hkey | exact Hocc]. }
    destruct Hhit as [key [Hkey Hocc]]. split.
    + left. split; [|reflexivity].
      exists key. split; [exact Hkey | now apply includes_occurs].
    + intros Heq. rewrite Heq, String.eqb_refl in Hscan. discriminate.
Qed.

(** A run of X7: "What about DEFAULT settings?" contains the key
    [default] but no keyword, so the completion API is asked and its text
    is the answer. *)
Lemma chat_answer_sources_witness :
  fst (@chat example_lowercase quiet_env
         [("message", VStr "What about DEFAULT settings?")] empty_world) =
  Returned (json 200 [("message",
    VStr "Protein timing matters less than the daily total.")]).
Proof.
  destruct (chat_answer_sources example_lowercase quiet_env empty_world
              [("message", VStr "What about DEFAULT settings?")]
              "What about DEFAULT settings?" eq_refl)
    as [reply [doc [Hres [[[[key [Hkey Hocc]] _]|[_ [_ Hreply]]] _]]]].
  - exfalso. apply includes_occurs in Hocc.
    vm_compute in Hkey.
    repeat (destruct Hkey as [Hkey|Hkey];
            [inversion Hkey; subst key; vm_compute in Hocc; discriminate|]).
    destruct Hkey.
  - rewrite Hres, Hreply. reflexivity.
Defined.

(** X8: the chat only looks at the lowercased [message].  Two bodies
    whose messages agree up to case get the same answer, the same
    completion query and the same history document; every other field of
    the body is ignored. *)
Theorem chat_ignores_case :
  forall (L : Lowercase) e w req_body req_body' message message',
    prop req_body "message" = VStr message ->
    prop req_body' "message" = VStr message' ->
    toLowerCase message = toLowerCase message' ->
    chat e req_body w = chat e req_body' w.
Proof.
  intros L e w b b' m m' Hm Hm' Hlower.
  rewrite (chat_run e w b m Hm), (chat_run e w b' m' Hm'). now rewrite Hlower.
Qed.

(** A run of X8: "DIET PLANS", sent with a user field, is handled as
    "diet plans". *)
Lemma chat_ignores_case_witness :
  @chat example_lowercase quiet_env
        [("user", VStr "ada"); ("message", VStr "DIET PLANS")] empty_world =
  @chat example_lowercase quiet_env [("message", VStr "diet plans")]
        empty_world.
Proof.
  apply (chat_ignores_case example_lowercase quiet_env empty_world
           [("user", VStr "ada"); ("message", VStr "DIET PLANS")]
           [("message", VStr "diet plans")] "DIET PLANS" "diet plans");
    reflexivity.
Defined.

(** ** How collections grow *)

Lemma length_after_insert (m : gmap string (list document)) c coll doc :
  length (<[c := m !!! c ++ [doc]]> m !!! coll) =
  length (m !!! coll) + (if String.eqb coll c then 1 else 0).
Proof.
  destruct (String.eqb_spec coll c) as [->|Hne].
  - rewrite lookup_total_insert_eq, length_app. reflexivity.
  - rewrite lookup_total_insert_ne by congruence. lia.
Qed.

Lemma handle_length `{Lowercase} `{Bcrypt} e r w coll :
  coll <> "subscriptions" ->
  length (db (snd (handle e r w)) !!! coll) =
  length (db w !!! coll) + (if stores_into coll (e, r) then 1 else 0).
Proof.
  intros Hcoll. unfold stores_into. cbn [fst snd].
  destruct r as [b|b|b|b|b|b]; cbn [handle].
  - destruct (prop b "message") as [| | | |message| | |] eqn:Hmsg;
      cbn [is_string];
      try (rewrite chat_throws by (intros m; rewrite Hmsg; discriminate);
           rewrite andb_false_r, andb_false_r; cbn [snd]; lia).
    rewrite (chat_run e w b message Hmsg). cbn [snd db].
    rewrite andb_true_r.
    destruct (insert_ok e); cbn [andb]; [apply length_after_insert | lia].
  - rewrite andb_false_r.
    rewrite (handle_other_collection e (PostSubscribe b) w coll); [lia|].
    cbn [written_by In]. intros [Heq|[]]. congruence.
  - rewrite send_diet_plan_db_eq.
    destruct (insert_ok e); cbn [andb]; [apply length_after_insert | lia].
  - rewrite book_appointment_db_eq.
    destruct (insert_ok e); cbn [andb]; [apply length_after_insert | lia].
  - destruct (prop b "password") as [| | | |password| | |] eqn:Hpw;
      cbn [is_string];
      try (rewrite get_started_throws by (rewrite Hpw; reflexivity);
           rewrite andb_false_r, andb_false_r; cbn [snd]; lia).
    rewrite (get_started_run e w b password Hpw). cbv zeta.
    rewrite andb_true_r.
    destruct (insert_ok e); cbn [andb snd db];
      [apply length_after_insert | lia].
  - rewrite andb_false_r.
    pose proof (handle_other_collection e (PostSignin b) w coll) as Hsame.
    cbn [handle written_by In] in Hsame. rewrite Hsame; [lia | tauto].
Qed.

(** X9: how many documents a collection holds after a run.  For
    [chatHistory], [dietPlans], [appointments] and [users], the size after
    serving requests is the size before plus the number of requests that
    store into it: a chat with a string message, any diet-plan or booking
    request, a sign-up with a string password, each with a working
    insert.  Nothing else matters: neither the answer (a sign-up answered
    500 after its insert counts), nor whether the email was used before,
    nor the other requests. *)
Theorem collection_size_after_serving :
  forall (L : Lowercase) (B : Bcrypt) rs w coll,
    coll <> "subscriptions" ->
    length (db (serve rs w) !!! coll) =
    length (db w !!! coll) + length (List.filter (stores_into coll) rs).
Proof.
  intros L B rs. induction rs as [|[e r] rs IH]; intros w coll Hcoll;
    cbn [serve List.filter].
  - cbn [length]. lia.
  - rewrite (IH _ coll Hcoll), (handle_length e r w coll Hcoll).
    destruct (stores_into coll (e, r)); cbn [length]; lia.
Qed.

(** A run of X9: two sign-ups with the same email, a chat and a sign-in
    leave three users where there was one. *)
Lemma collection_size_after_serving_witness :
  length (users_of (@serve example_lowercase example_bcrypt
                      [(quiet_env, PostGetStarted ada_signup);
                       (quiet_env, PostChat [("message", VStr "hello")]);
                       (quiet_env, PostGetStarted ada_signup);
                       (quiet_env, PostSignin ada_credentials)]
                      ada_world)) = 3.
Proof.
  unfold users_of.
  rewrite (collection_size_after_serving example_lowercase example_bcrypt _
             ada_world "users").
  - reflexivity.
  - discriminate.
Defined.

(** ** Diet plans and appointments *)

(** X10: what [/send-diet-plan] and [/book-appointment] do with a body.
    The request's fields are stored as they come, absent ones included;
    for a diet plan, the stored [dietPlan] is the fragment the [switch]
    gives for the request's goal and preference.  The insert is the first
    call; the mail follows exactly when the insert succeeded and the mail
    body can be built, and goes to the request's [email]; when the body
    cannot be built the handler throws a [TypeError] after the insert.
    No field is checked: among the bodies whose mail can be built, and
    for every body when the insert fails, the answer depends only on
    whether the insert and the mail succeed. *)
Theorem diet_plan_and_booking_effects :
  (forall e w req_body,
      exists doc,
        calls_since w (snd (send_diet_plan e req_body w)) =
        EvInsertOne "dietPlans" doc ::
        (if insert_ok e && diet_plan_mail_ok req_body
         then [EvSendMail (prop req_body "email") "Your Personalized Diet Plan"]
         else []) /\
        prop doc "dietPlan" =
        VStr (dietPlanFor (prop req_body "goal")
                          (prop req_body "dietPreference")) /\
        (forall key,
            In key ["name"; "email"; "goal"; "height"; "weight";
                    "exerciseLevel"; "dietPreference"] ->
            prop doc key = prop req_body key) /\
        (insert_ok e = true ->
         db (snd (send_diet_plan e req_body w)) !!! "dietPlans" =
         db w !!! "dietPlans" ++ [("_id", VStr (fresh_id e)) :: doc]) /\
        (insert_ok e = true -> diet_plan_mail_ok req_body = false ->
         fst (send_diet_plan e req_body w) = Thrown TypeError) /\
        (forall w' req_body',
            insert_ok e = false \/
            (diet_plan_mail_ok req_body = true /\
             diet_plan_mail_ok req_body' = true) ->
            fst (send_diet_plan e req_body' w') =
            fst (send_diet_plan e req_body w))) /\
  (forall e w req_body,
      exists doc,
        calls_since w (snd (book_appointment e req_body w)) =
        EvInsertOne "appointments" doc ::
        (if insert_ok e && booking_mail_ok req_body
         then [EvSendMail (prop req_body "email") "Appointment Confirmation"]
         else []) /\
        (forall key,
            In key ["name"; "email"; "phone"; "date"; "time"] ->
            prop doc key = prop req_body key) /\
        (insert_ok e = true ->
         db (snd (book_appointment e req_body w)) !!! "appointments" =
         db w !!! "appointments" ++ [("_id", VStr (fresh_id e)) :: doc]) /\
        (insert_ok e = true -> booking_mail_ok req_body = false ->
         fst (book_appointment e req_body w) = Thrown TypeError) /\
        (forall w' req_body',
            insert_ok e = false \/
            (booking_mail_ok req_body = true /\
             booking_mail_ok req_body' = true) ->
            fst (book_appointment e req_body' w') =
            fst (book_appointment e req_body w))).
Proof.
  split; intros e w req_body.
  - exists (dietPlanData_of req_body).
    split; [|split; [reflexivity|split; [|split; [|split]]]].
    + rewrite send_diet_plan_run. cbv zeta.
      destruct (insert_ok e); [destruct (diet_plan_mail_ok req_body)|];
        cbn [snd andb]; erewrite calls_since_app by reflexivity; reflexivity.
    + intros key Hin.
      repeat (destruct Hin as [<-|Hin]; [reflexivity|]). destruct Hin.
    + intros Hi. rewrite send_diet_plan_db_eq, Hi.
      apply lookup_total_insert_eq.
    + intros Hi Hbody. rewrite send_diet_plan_run. cbv zeta.
      now rewrite Hi, Hbody.
    + intros w' req_body' Hcase. rewrite !send_diet_plan_run. cbv zeta.
      destruct Hcase as [Hi|[Hb Hb']]; [now rewrite Hi|].
      rewrite Hb, Hb'. now destruct (insert_ok e).
  - exists (appointment_of req_body).
    split; [|split; [|split; [|split]]].
    + rewrite book_appointment_run. cbv zeta.
      destruct (insert_ok e); [destruct (booking_mail_ok req_body)|];
        cbn [snd andb]; erewrite calls_since_app by reflexivity; reflexivity.
    + intros key Hin.
      repeat (destruct Hin as [<-|Hin]; [reflexivity|]). destruct Hin.
    + intros Hi. rewrite book_appointment_db_eq, Hi.
      apply lookup_total_insert_eq.
    + intros Hi Hbody. rewrite book_appointment_run. cbv zeta.
      now rewrite Hi, Hbody.
    + intros w' req_body' Hcase. rewrite !book_appointment_run. cbv zeta.
      destruct Hcase as [Hi|[Hb Hb']]; [now rewrite Hi|].
      rewrite Hb, Hb'. now destruct (insert_ok e).
Qed.

(** A run of X10: an empty body is stored with the default fragment and
    answered like any other; a height that is an object with its own
    [toString] is stored, and then the handler throws. *)
Lemma diet_plan_and_booking_effects_witness :
  (exists doc,
      db (snd (send_diet_plan quiet_env [] empty_world)) !!! "dietPlans" =
      [("_id", VStr (fresh_id quiet_env)) :: doc] /\
      prop doc "dietPlan" = VStr no_plan_selected /\
      prop doc "email" = VUndefined) /\
  fst (send_diet_plan quiet_env [] empty_world) =
  fst (send_diet_plan quiet_env [("goal", VStr "weight_loss")] empty_world) /\
  fst (send_diet_plan quiet_env [("height", VObj [("toString", VNull)])]
         empty_world) = Thrown TypeError.
Proof.
  destruct (proj1 diet_plan_and_booking_effects quiet_env empty_world [])
    as [doc [_ [Hplan [Hfields [Hdb [_ Hany]]]]]].
  split; [|split].
  - exists doc. split; [exact (Hdb eq_refl)|]. split; [exact Hplan|].
    apply (Hfields "email"). right. left. reflexivity.
  - symmetry. apply Hany. right. split; reflexivity.
  - destruct (proj1 diet_plan_and_booking_effects quiet_env empty_world
                [("height", VObj [("toString", VNull)])])
      as [doc' [_ [_ [_ [_ [Hthrows _]]]]]].
    apply Hthrows; reflexivity.
Defined.

(** ** User documents *)

Lemma handle_users `{Lowercase} `{Bcrypt} e r w :
  users_of (snd (handle e r w)) = users_of w \/
  exists req_body password,
    r = PostGetStarted req_body /\
    prop req_body "password" = VStr password /\
    insert_ok e = true /\
    users_of (snd (handle e r w)) =
    users_of w ++ [("_id", VStr (fresh_id e)) :: userData_of e req_body password].
Proof.
  unfold users_of.
  destruct r as [b|b|b|b|b|b];
    try (left; apply handle_other_collection; cbn [written_by In];
         solve [tauto | intros [Hc|[]]; discriminate]).
  cbn [handle].
  destruct (prop b "password") as [| | | |password| | |] eqn:Hpw;
    try (left; rewrite get_started_throws by (rewrite Hpw; reflexivity);
         reflexivity).
  rewrite (get_started_run e w b password Hpw). cbv zeta.
  destruct (insert_ok e) eqn:Hinsert; [right | left; reflexivity].
  exists b, password. repeat split; try assumption.
  cbn [snd db]. apply lookup_total_insert_eq.
Qed.

(** X11: every user document written while serving requests comes from
    a sign-up among them: it is that request's fields as they came, under
    a generated [_id], with the [password] replaced by its bcrypt hash
    with 10 rounds.  No request stores a submitted password itself, and
    no request changes or removes a user document. *)
Theorem users_come_from_signups :
  forall (L : Lowercase) (B : Bcrypt) rs w,
    exists added,
      users_of (serve rs w) = users_of w ++ added /\
      Forall (fun doc =>
                exists e req_body password,
                  In (e, PostGetStarted req_body) rs /\
                  prop req_body "password" = VStr password /\
                  doc = ("_id", VStr (fresh_id e))
                        :: userData_of e req_body password /\
                  prop doc "password" =
                  VStr (bcrypt_hash password 10 (salt e)))
             added.
Proof.
  intros L B rs. induction rs as [|[e r] rs IH]; intros w; cbn [serve].
  - exists []. split; [now rewrite app_nil_r | constructor].
  - destruct (IH (snd (handle e r w))) as [later [Hlater Hall]].
    assert (Hall' : Forall (fun doc =>
                exists e0 req_body password,
                  In (e0, PostGetStarted req_body) ((e, r) :: rs) /\
                  prop req_body "password" = VStr password /\
                  doc = ("_id", VStr (fresh_id e0))
                        :: userData_of e0 req_body password /\
                  prop doc "password" =
                  VStr (bcrypt_hash password 10 (salt e0)))
             later).
    { eapply Forall_impl; [exact Hall|].
      intros doc [e0 [b [p [Hin Hrest]]]]. exists e0, b, p.
      split; [right; exact Hin | exact Hrest]. }
    destruct (handle_users e r w) as [Hsame|[b [p [-> [Hpw [_ Hnew]]]]]].
    + exists later. split; [now rewrite Hlater, Hsame | exact Hall'].
    + exists ((("_id", VStr (fresh_id e)) :: userData_of e b p) :: later).
      split.
      * rewrite Hlater, Hnew, <- app_assoc. reflexivity.
      * constructor; [|exact Hall'].
        exists e, b, p. split; [left; reflexivity|].
        split; [exact Hpw|]. split; reflexivity.
Qed.

(** A run of X11: the user added by the second sign-up for
    ada@example.org holds the hash of "secret123". *)
Lemma users_come_from_signups_witness :
  exists doc,
    users_of (@serve example_lowercase example_bcrypt
                [(quiet_env, PostGetStarted ada_signup)] ada_world) =
    users_of ada_world ++ [doc] /\
    prop doc "password" = VStr "$2a$10$secret123".
Proof.
  destruct (users_come_from_signups example_lowercase example_bcrypt
              [(quiet_env, PostGetStarted ada_signup)] ada_world)
    as [added [Hadded Hall]].
  assert (Hlen : length added = 1).
  { apply (f_equal length) in Hadded. rewrite length_app in Hadded.
    vm_compute in Hadded. vm_compute. lia. }
  destruct added as [|doc [|doc' added]]; try discriminate.
  exists doc. split; [exact Hadded|].
  inversion Hall as [|doc0 l0 [e [b [p [Hin [Hpw [_ Hhash]]]]]] _]. subst.
  destruct Hin as [Heq|[]]. inversion Heq; subst e b.
  vm_compute in Hpw. inversion Hpw; subst p. exact Hhash.
Defined.
